(** * LizardFS: the slow file copier / slow file reader utilities and the
      mount/readdata.h interface

    The development embeds

    - [src/utils/slow_file_reader.cc], which holds two programs sharing most
      of their helpers: the copier ([fileLength], [fileCopy]) and the reader
      ([fileRead]); both configure themselves through the [Options]
      singleton and parse sizes with [dehumanize];
    - the declarations of [src/src/mount/readdata.h].

    Conventions.  A C++ [long] is a [Z] reduced to the signed 64-bit range by
    [wrap64]; a [double] is a binary64 value of [SpecFloat]; a [std::string]
    is a list of characters; the [Options] singleton is an explicit global
    store threaded through every function that calls [getInstance].

    The environment.  The files are regular files, given with their bytes,
    one path each; a device may bound the bytes that a file holds, and the
    process is given a bounded block of memory for its buffer;
    [Clock::now()] is a sequence of readings in nanoseconds; [getopt] is
    taken as the list of options it finds in [argv].  The progress lines
    that the programs print are not part of the model, and loops run on
    fuel. *)

From Stdlib Require Import ZArith List Bool Lia Ascii String.
From Stdlib Require Import Floats.SpecFloat.
Import ListNotations.
Local Open Scope Z_scope.

(* ================================================================== *)
(** ** Machine integers *)

Module Long.

Definition LONG_MIN : Z := - 2 ^ 63.
Definition LONG_MAX : Z := 2 ^ 63 - 1.

Definition in_range (z : Z) : bool := (LONG_MIN <=? z) && (z <=? LONG_MAX).

(** Two's complement reduction to 64 bits (what x86-64 arithmetic on a
    [long] yields; overflow is undefined in C++). *)
Definition wrap64 (z : Z) : Z := (z + 2 ^ 63) mod 2 ^ 64 - 2 ^ 63.

Definition add (a b : Z) : Z := wrap64 (a + b).
Definition mul (a b : Z) : Z := wrap64 (a * b).

End Long.

(* ================================================================== *)
(** ** Binary64 arithmetic *)

Module Double.

Definition double := spec_float.

Definition prec : Z := 53.
Definition emax : Z := 1024.

(** Conversion of an integer to [double], round to nearest even. *)
Definition of_Z (z : Z) : double := binary_normalize prec emax z 0 false.

Definition add (x y : double) : double := SFadd prec emax x y.
Definition mul (x y : double) : double := SFmul prec emax x y.
Definition eqb (x y : double) : bool := SFeqb x y.
Definition ltb (x y : double) : bool := SFltb x y.
Definition gtb (x y : double) : bool := SFltb y x.

Definition zero : double := S754_zero false.
Definition minus_one : double := Eval cbv in of_Z (-1).

(** [1e-9], the factor turning a nanosecond count into seconds
    (0x1.12e0be826d695p-30). *)
Definition nano : double := S754_finite false 4835703278458517 (-82).

(** [MAXFLOAT], the largest finite binary32 value, (2^24 - 1) * 2^104. *)
Definition MAXFLOAT : double :=
  Eval cbv in binary_normalize prec emax (2 ^ 24 - 1) 104 false.

(** The integer part of a finite value, rounded toward zero. *)
Definition trunc (s : bool) (m : positive) (e : Z) : Z :=
  let a := if 0 <=? e then Zpos m * 2 ^ e else Zpos m / 2 ^ (- e) in
  if s then - a else a.

(** The conversion [long(x)]: truncation toward zero.  A value outside the
    range of [long], an infinity or a NaN is undefined behaviour in C++;
    the x86-64 conversion instruction then yields [LONG_MIN], which is what
    is modelled. *)
Definition to_long (x : double) : Z :=
  match x with
  | S754_zero _ => 0
  | S754_finite s m e =>
      let v := trunc s m e in
      if Long.in_range v then v else Long.LONG_MIN
  | S754_infinity _ | S754_nan => Long.LONG_MIN
  end.

End Double.

(* ================================================================== *)
(** ** Regular expressions

    [std::regex] with the default ECMAScript grammar, restricted to the
    constructs that [dehumanize] uses.  Matching follows the backtracking
    semantics of the grammar: a matcher takes the remaining input and a
    continuation that decides on what is left. *)

Module Regex.

Inductive regex : Type :=
| Chr (c : ascii)            (* a literal character *)
| AnyChar                    (* [.] : anything but a line terminator *)
| EndOfInput                 (* [$] *)
| Seq (r1 r2 : regex)
| Alt (r1 r2 : regex)        (* [r1|r2] *)
| Star (r : regex).          (* [r*] *)

Definition is_line_terminator (c : ascii) : bool :=
  Ascii.eqb c "010"%char || Ascii.eqb c "013"%char.

(** The repetition [r*]: [step] matches [r] once; a turn that consumes
    nothing is not repeated, so [n], the length of the input, bounds the
    number of turns. *)
Fixpoint iterate (step : list ascii -> (list ascii -> bool) -> bool)
         (k : list ascii -> bool) (n : nat) (s : list ascii) : bool :=
  match n with
  | O => k s
  | S n' =>
      step s (fun s' =>
                if Nat.ltb (List.length s') (List.length s)
                then iterate step k n' s' else false)
      || k s
  end.

Fixpoint run (r : regex) (s : list ascii) (k : list ascii -> bool)
  {struct r} : bool :=
  match r with
  | Chr c =>
      match s with
      | a :: s' => Ascii.eqb a c && k s'
      | [] => false
      end
  | AnyChar =>
      match s with
      | a :: s' => negb (is_line_terminator a) && k s'
      | [] => false
      end
  | EndOfInput =>
      match s with
      | [] => k []
      | _ :: _ => false
      end
  | Seq r1 r2 => run r1 s (fun s' => run r2 s' k)
  | Alt r1 r2 => run r1 s k || run r2 s k
  | Star r' => iterate (run r') k (List.length s) s
  end.

(** [std::regex_match]: the whole input has to be consumed. *)
Definition regex_match (s : list ascii) (r : regex) : bool :=
  run r s (fun rest => match rest with [] => true | _ :: _ => false end).




End Regex.

(* ================================================================== *)
(** ** Characters and numbers in strings *)

Module Chars.

Definition code (c : ascii) : Z := Z.of_nat (nat_of_ascii c).

(** [isspace] in the C locale. *)
Definition is_space (c : ascii) : bool :=
  (code c =? 32) || ((9 <=? code c) && (code c <=? 13)).

Definition is_digit (c : ascii) : bool :=
  (48 <=? code c) && (code c <=? 57).

Definition digit_value (c : ascii) : Z := code c - 48.

Definition lower (c : ascii) : ascii :=
  if (65 <=? code c) && (code c <=? 90)
  then ascii_of_nat (nat_of_ascii c + 32) else c.

Fixpoint skip_spaces (s : list ascii) : list ascii :=
  match s with
  | c :: s' => if is_space c then skip_spaces s' else s
  | [] => []
  end.

(** The longest prefix of decimal digits, and what follows it. *)
Fixpoint span_digits (s : list ascii) : list ascii * list ascii :=
  match s with
  | c :: s' =>
      if is_digit c
      then let '(ds, rest) := span_digits s' in (c :: ds, rest)
      else ([], s)
  | [] => ([], [])
  end.

(** The value of a string of decimal digits, most significant first. *)
Definition decimal (ds : list ascii) : Z :=
  fold_left (fun acc c => 10 * acc + digit_value c) ds 0.

End Chars.

(* ================================================================== *)
(** ** [readNumber] and [dehumanize]

    Both programs of [slow_file_reader.cc] define these two functions with
    the same text. *)

Module Numbers.
Import Chars Regex.

(** Whether [s] starts with [word], letter case apart. *)
Fixpoint starts_with (word s : list ascii) : bool :=
  match word, s with
  | [], _ => true
  | a :: word', b :: s' => Ascii.eqb (lower b) a && starts_with word' s'
  | _ :: _, [] => false
  end.

(** The subject of [strtod] is an infinity or a NaN. *)
Definition starts_special (s : list ascii) : bool :=
  starts_with (list_ascii_of_string "inf") s
  || starts_with (list_ascii_of_string "nan") s.

(** What follows the digits [ds] could go on with the number: a
    fraction, an exponent, or the [x] of a hexadecimal number. *)
Definition continues_number (ds rest : list ascii) : bool :=
  match rest with
  | c :: _ =>
      Ascii.eqb c "."
      || (Ascii.eqb (lower c) "e" && negb (Nat.eqb (List.length ds) 0))
      || (Ascii.eqb (lower c) "x"
          && match ds with [d] => Ascii.eqb d "0" | _ => false end)
  | [] => false
  end.

(** The optional sign: whether it is a minus, and what follows it. *)
Definition sign_of (s : list ascii) : bool * list ascii :=
  match s with
  | c :: t =>
      if Ascii.eqb c "-" then (true, t)
      else if Ascii.eqb c "+" then (false, t)
      else (false, s)
  | [] => (false, s)
  end.

(** [strtod] in the C locale: white space, an optional sign, then the
    number.  The model covers the plain decimal integers, which are read
    into the nearest [double], and the inputs on which [strtod] converts
    nothing and answers zero; a fraction, an exponent, a hexadecimal
    number, an infinity or a NaN are left out, and the model answers
    [None] on every input that could start one. *)
Definition strtod (s : list ascii) : option Double.double :=
  let '(negative, s2) := sign_of (skip_spaces s) in
  let '(ds, rest) := span_digits s2 in
  if starts_special s2 || continues_number ds rest then None
  else
    match ds with
    | [] => Some Double.zero          (* no conversion is performed *)
    | _ :: _ =>
        let x := Double.of_Z (decimal ds) in
        Some (if negative then SFopp x else x)
    end.

Definition readNumber (number : list ascii) : option Double.double :=
  strtod number.

(** [".*(K|KiB)$"] *)
Definition re_kibi : regex :=
  Seq (Star AnyChar)
      (Seq (Alt (Chr "K") (Seq (Chr "K") (Seq (Chr "i") (Chr "B"))))
           EndOfInput).

(** [".*(M|MiB)$"] *)
Definition re_mebi : regex :=
  Seq (Star AnyChar)
      (Seq (Alt (Chr "M") (Seq (Chr "M") (Seq (Chr "i") (Chr "B"))))
           EndOfInput).

(** [",*(G|GiB)$"] *)
Definition re_gibi : regex :=
  Seq (Star (Chr ","))
      (Seq (Alt (Chr "G") (Seq (Chr "G") (Seq (Chr "i") (Chr "B"))))
           EndOfInput).

Definition dehumanize (number : list ascii) : option Z :=
  match readNumber number with
  | None => None
  | Some x =>
      let result := Double.to_long x in
      Some (if regex_match number re_kibi then Long.mul result (2 ^ 10)
            else if regex_match number re_mebi then Long.mul result (2 ^ 20)
            else if regex_match number re_gibi then Long.mul result (2 ^ 30)
            else result)
  end.

Definition dehumanize_string (number : string) : option Z :=
  dehumanize (list_ascii_of_string number).





End Numbers.

(* ================================================================== *)
(** ** File streams

    [std::ifstream] and [std::ofstream] over regular files, as far as the
    two programs use them: the stream state bits, the position, and the
    unformatted operations [read], [tellg], [seekg], [seekp], [write].  A
    stream for input holds the bytes of its file; they change when a
    stream for output is opened, or writes, on the same file ([shared]). *)

Module IOS.

Record iostate : Type := {
  eofbit : bool;
  failbit : bool;
  badbit : bool
}.

Definition goodbit : iostate :=
  {| eofbit := false; failbit := false; badbit := false |}.

Definition is_good (st : iostate) : bool :=
  negb (eofbit st || failbit st || badbit st).

Definition is_fail (st : iostate) : bool := failbit st || badbit st.

Definition set_fail (st : iostate) : iostate :=
  {| eofbit := eofbit st; failbit := true; badbit := badbit st |}.

Definition set_eof_fail (st : iostate) : iostate :=
  {| eofbit := true; failbit := true; badbit := badbit st |}.

Definition clear_eof (st : iostate) : iostate :=
  {| eofbit := false; failbit := failbit st; badbit := badbit st |}.

Definition set_bad (st : iostate) : iostate :=
  {| eofbit := eofbit st; failbit := failbit st; badbit := true |}.

(** *** Input *)

Record ifstream : Type := {
  content : list Byte.byte;
  gpos : N;                 (* the get position in the file *)
  rdstate : iostate;
  gcount : Z                (* characters taken by the last [read] *)
}.

(** A stream converts to [true] when it has not failed. *)
Definition ok (s : ifstream) : bool := negb (is_fail (rdstate s)).

Definition size (s : ifstream) : Z := Z.of_nat (List.length (content s)).

Definition with_state (s : ifstream) (st : iostate) : ifstream :=
  {| content := content s; gpos := gpos s; rdstate := st;
     gcount := gcount s |}.

(** The sentry of an unformatted input function: it lets the operation
    run on a good stream, and sets [failbit] otherwise. *)
Definition sentry (s : ifstream) : bool * ifstream :=
  if is_good (rdstate s) then (true, s)
  else (false, with_state s (set_fail (rdstate s))).

Definition tellg (s : ifstream) : Z * ifstream :=
  let '(go, s1) := sentry s in
  if go && negb (is_fail (rdstate s1)) then (Z.of_N (gpos s1), s1)
  else (-1, s1).

Inductive seekdir : Type := beg | cur | end_.

(** [seekg] first clears [eofbit]; moving before the start of the file
    fails and sets [failbit]. *)
Definition seekg (off : Z) (dir : seekdir) (s : ifstream) : ifstream :=
  let s0 := with_state s (clear_eof (rdstate s)) in
  let '(go, s1) := sentry s0 in
  if go && negb (is_fail (rdstate s1)) then
    let base := match dir with
                | beg => 0
                | cur => Z.of_N (gpos s1)
                | end_ => size s1
                end in
    if base + off <? 0 then with_state s1 (set_fail (rdstate s1))
    else {| content := content s1; gpos := Z.to_N (base + off);
            rdstate := rdstate s1; gcount := gcount s1 |}
  else s1.

(** The characters that [read] can still take, at most [n] of them. *)
Definition available (n : Z) (s : ifstream) : list Byte.byte :=
  firstn (Z.to_nat n) (skipn (N.to_nat (gpos s)) (content s)).

(** [read(buffer, n)]: the characters taken, and the stream afterwards;
    taking fewer than [n] sets [eofbit] and [failbit]. *)
Definition read (n : Z) (s : ifstream) : list Byte.byte * ifstream :=
  let '(go, s1) := sentry s in
  if go then
    let data := available n s1 in
    let k := Z.of_nat (List.length data) in
    (data,
     {| content := content s1;
        gpos := (gpos s1 + N.of_nat (List.length data))%N;
        rdstate := if k =? n then rdstate s1
                   else set_eof_fail (rdstate s1);
        gcount := k |})
  else
    ([], {| content := content s1; gpos := gpos s1; rdstate := rdstate s1;
            gcount := 0 |}).

(** *** Output *)

(** [written] holds the bytes of the file that the stream is open on;
    [room] is the most bytes that this file can hold, when the device
    sets a bound ([Some 0] for a device that is full). *)
Record ofstream : Type := {
  written : list Byte.byte;
  ppos : N;
  wrstate : iostate;
  room : option nat
}.

Definition ook (s : ofstream) : bool := negb (is_fail (wrstate s)).

Definition seekp (off : Z) (s : ofstream) : ofstream :=
  if is_fail (wrstate s) then s
  else if off <? 0
       then {| written := written s; ppos := ppos s;
               wrstate := set_fail (wrstate s); room := room s |}
       else {| written := written s; ppos := Z.to_N off;
               wrstate := wrstate s; room := room s |}.

(** Overwrite [old] from position [p] on with [data]; a gap between the
    end of [old] and [p] is filled with zero bytes.  No bytes change
    nothing. *)
Definition overwrite (old : list Byte.byte) (p : nat)
           (data : list Byte.byte) : list Byte.byte :=
  match data with
  | [] => old
  | _ :: _ =>
      firstn p old ++ repeat Byte.x00 (p - List.length old) ++ data
        ++ skipn (p + List.length data) old
  end.

(** How many of the bytes of [data] the file takes at the put position. *)
Definition fitting (s : ofstream) (data : list Byte.byte) : nat :=
  match room s with
  | None => List.length data
  | Some r => Nat.min (List.length data) (r - N.to_nat (ppos s))
  end.

(** [write(buffer, n)] followed by [flush()].  On a good stream the bytes
    go to the file; when the device does not take them all, those that
    fit are written and [badbit] is set.  The sentry of an output
    function adds [failbit] to a stream that is bad. *)
Definition write (data : list Byte.byte) (s : ofstream) : ofstream :=
  if is_good (wrstate s) then
    let k := fitting s data in
    {| written := overwrite (written s) (N.to_nat (ppos s)) (firstn k data);
       ppos := (ppos s + N.of_nat k)%N;
       wrstate := if Nat.eqb k (List.length data) then wrstate s
                  else set_bad (wrstate s);
       room := room s |}
  else if badbit (wrstate s) then
    {| written := written s; ppos := ppos s;
       wrstate := set_fail (wrstate s); room := room s |}
  else s.

(** *** The machine *)

(** What the program finds around it: the regular files by their paths,
    the paths that cannot be opened for output, the most bytes that the
    files at some paths can hold (the room that their device has), and
    the size of the largest block of memory that the process is given.
    A file has one path: links are not modelled, nor are pipes and
    terminals. *)
Record filesystem : Type := {
  files : list (string * list Byte.byte);
  unwritable : list string;     (* paths that cannot be opened for output *)
  capacity : list (string * nat);
  memory : Z
}.

Fixpoint lookup (path : string) (l : list (string * list Byte.byte))
  : option (list Byte.byte) :=
  match l with
  | (p, c) :: l' => if String.eqb p path then Some c else lookup path l'
  | [] => None
  end.

Fixpoint room_at (path : string) (l : list (string * nat)) : option nat :=
  match l with
  | (p, r) :: l' => if String.eqb p path then Some r else room_at path l'
  | [] => None
  end.

(** [std::vector<char> buffer(n)]: a negative [n], taken as a [size_t],
    is beyond [max_size()] and the constructor throws
    [std::length_error]; a size that the process is not given throws
    [std::bad_alloc]. *)
Definition allocates (fs : filesystem) (n : Z) : bool :=
  (0 <=? n) && (n <=? memory fs).

(** [std::ifstream ifs(path, binary)]; a missing file leaves the stream
    failed. *)
Definition open_in (fs : filesystem) (path : string) : ifstream :=
  match lookup path (files fs) with
  | Some c => {| content := c; gpos := 0%N; rdstate := goodbit;
                 gcount := 0 |}
  | None => {| content := []; gpos := 0%N; rdstate := set_fail goodbit;
               gcount := 0 |}
  end.

(** [std::ofstream ofs(path, binary)]: the file is created or emptied,
    so the stream starts on a file of no bytes.  The file system is what
    the program finds when it starts; what becomes of a file afterwards
    is held by the streams that are open on it: by [written] in the
    stream for output, and through [shared] by [content] in a stream for
    input on the same file. *)
Definition open_out (fs : filesystem) (path : string) : ofstream :=
  {| written := []; ppos := 0%N;
     wrstate := if existsb (String.eqb path) (unwritable fs)
                then set_fail goodbit else goodbit;
     room := room_at path (capacity fs) |}.

(** Two paths that name one file. *)
Definition same_file (p q : string) : bool := String.eqb p q.

(** A stream for input on the file at [path], while the stream [f] for
    output is open on the file at [out]: when the two are one file, the
    bytes that [f] has made of it -- none, after [open_out] -- are what
    the stream for input reads from then on.  Its position and its state
    stay. *)
Definition shared (out : string) (f : ofstream) (path : string)
           (s : ifstream) : ifstream :=
  if same_file out path
  then {| content := written f; gpos := gpos s; rdstate := rdstate s;
          gcount := gcount s |}
  else s.

End IOS.

(* ================================================================== *)
(** ** What a call can come to *)

Inductive outcome (A : Type) : Type :=
| Returned (a : A)     (* the call returns [a] *)
| Aborted              (* the process is killed: uncaught exception, SIGFPE *)
| NotModelled          (* [strtod] met a number outside the model *)
| OutOfFuel.           (* the loop was cut short by the model's fuel *)

Arguments Returned {A} a.
Arguments Aborted {A}.
Arguments NotModelled {A}.
Arguments OutOfFuel {A}.

Definition bind {A B : Type} (r : outcome A) (f : A -> outcome B)
  : outcome B :=
  match r with
  | Returned a => f a
  | Aborted => Aborted
  | NotModelled => NotModelled
  | OutOfFuel => OutOfFuel
  end.

Notation "x <- r ;; k" := (bind r (fun x => k))
  (at level 61, r at next level, right associativity).

Definition of_option {A : Type} (o : option A) : outcome A :=
  match o with
  | Some a => Returned a
  | None => NotModelled
  end.

(** [Clock::now()]: the [k]-th reading of the clock, in nanoseconds. *)
Definition clock : Type := nat -> Z.

(** The nanoseconds between two readings, as the [double] number of seconds
    [double(TO_NANOSECONDS(later - earlier)) * 1e-9]. *)
Definition seconds_between (earlier later : Z) : Double.double :=
  Double.mul (Double.of_Z (Long.wrap64 (later - earlier))) Double.nano.

(* ================================================================== *)
(** ** The [Options] singleton *)

Module Config.

(** The members that the two programs share; the reader's [Options] also
    holds [statsStream], a reference to [std::cout] for the progress lines,
    which is left out. *)
Record Options : Type := {
  chunkSize : Z;
  chunksMaxCount : Z;
  source : string;
  destination : string;
  showProgress : bool;
  querySize : Z;
  timeoutSeconds : Double.double;
  waitingTimeMilliseconds : Z
}.

(** The protected constructor [Options()]. *)
Definition defaults : Options :=
  {| chunkSize := Z.shiftl (64 * 1) 20;
     chunksMaxCount := -1;
     source := "/dev/urandom";
     destination := "/dev/null";
     showProgress := true;
     querySize := -1;
     timeoutSeconds := Double.minus_one;
     waitingTimeMilliseconds := 0 |}.

(** The static member [Options::instance]: [None] is [nullptr]. *)
Definition global : Type := option Options.

Definition nullptr : global := None.

(** [Options::getInstance()]: the object that [instance] points to,
    constructed on the first call. *)
Definition getInstance (g : global) : Options * global :=
  match g with
  | None => (defaults, Some defaults)
  | Some o => (o, g)
  end.

(** A member assigned through the pointer that [getInstance] returned. *)
Definition store (o : Options) : global := Some o.

Definition set_chunkSize (v : Z) (o : Options) : Options :=
  {| chunkSize := v; chunksMaxCount := chunksMaxCount o;
     source := source o; destination := destination o;
     showProgress := showProgress o; querySize := querySize o;
     timeoutSeconds := timeoutSeconds o;
     waitingTimeMilliseconds := waitingTimeMilliseconds o |}.

Definition set_chunksMaxCount (v : Z) (o : Options) : Options :=
  {| chunkSize := chunkSize o; chunksMaxCount := v;
     source := source o; destination := destination o;
     showProgress := showProgress o; querySize := querySize o;
     timeoutSeconds := timeoutSeconds o;
     waitingTimeMilliseconds := waitingTimeMilliseconds o |}.

Definition set_source (v : string) (o : Options) : Options :=
  {| chunkSize := chunkSize o; chunksMaxCount := chunksMaxCount o;
     source := v; destination := destination o;
     showProgress := showProgress o; querySize := querySize o;
     timeoutSeconds := timeoutSeconds o;
     waitingTimeMilliseconds := waitingTimeMilliseconds o |}.

Definition set_destination (v : string) (o : Options) : Options :=
  {| chunkSize := chunkSize o; chunksMaxCount := chunksMaxCount o;
     source := source o; destination := v;
     showProgress := showProgress o; querySize := querySize o;
     timeoutSeconds := timeoutSeconds o;
     waitingTimeMilliseconds := waitingTimeMilliseconds o |}.

Definition set_showProgress (v : bool) (o : Options) : Options :=
  {| chunkSize := chunkSize o; chunksMaxCount := chunksMaxCount o;
     source := source o; destination := destination o;
     showProgress := v; querySize := querySize o;
     timeoutSeconds := timeoutSeconds o;
     waitingTimeMilliseconds := waitingTimeMilliseconds o |}.

Definition set_querySize (v : Z) (o : Options) : Options :=
  {| chunkSize := chunkSize o; chunksMaxCount := chunksMaxCount o;
     source := source o; destination := destination o;
     showProgress := showProgress o; querySize := v;
     timeoutSeconds := timeoutSeconds o;
     waitingTimeMilliseconds := waitingTimeMilliseconds o |}.

Definition set_timeoutSeconds (v : Double.double) (o : Options) : Options :=
  {| chunkSize := chunkSize o; chunksMaxCount := chunksMaxCount o;
     source := source o; destination := destination o;
     showProgress := showProgress o; querySize := querySize o;
     timeoutSeconds := v;
     waitingTimeMilliseconds := waitingTimeMilliseconds o |}.

Definition set_waitingTimeMilliseconds (v : Z) (o : Options) : Options :=
  {| chunkSize := chunkSize o; chunksMaxCount := chunksMaxCount o;
     source := source o; destination := destination o;
     showProgress := showProgress o; querySize := querySize o;
     timeoutSeconds := timeoutSeconds o;
     waitingTimeMilliseconds := v |}.

(** Division of two [long]s: toward zero; dividing by zero, or
    [LONG_MIN] by [-1], traps. *)
Definition long_div (a b : Z) : outcome Z :=
  if (b =? 0) || ((a =? Long.LONG_MIN) && (b =? -1)) then Aborted
  else Returned (Z.quot a b).

(** The tail shared by the two versions of [processOptions]. *)
Definition finishOptions (o : Options) : outcome Options :=
  o1 <- (if chunksMaxCount o =? -1
         then n <- long_div (querySize o) (chunkSize o) ;;
              Returned (set_chunksMaxCount n o)
         else Returned o) ;;
  Returned (if Double.eqb Double.minus_one (timeoutSeconds o1)
            then set_timeoutSeconds Double.MAXFLOAT o1 else o1).

(** The options that [getopt] hands to [parseArguments], one after the
    other: the option character and its argument. *)
Definition parsed : Type := (ascii * string)%type.

(** The [-i] and [-o] arguments: ["-"] stands for the standard stream. *)
Definition path_or (std : string) (optarg : string) : string :=
  if String.eqb optarg "-" then std else optarg.

Definition to_long_number (optarg : string) : outcome Z :=
  x <- of_option (Numbers.readNumber (list_ascii_of_string optarg)) ;;
  Returned (Double.to_long x).

End Config.

(** How one pass through the body of a [do ... while] loop ends. *)
Inductive flow : Type :=
| Break       (* the [break] statement *)
| Again       (* the loop condition holds *)
| Leave.      (* the loop condition fails *)

(* ================================================================== *)
(** ** The reader: [processOptions], [parseArguments], [fileRead], [main] *)

Module Reader.
Import Config.

Definition processOptions (g : global) : outcome global :=
  let '(o, _) := getInstance g in
  let o1 := if querySize o =? -1 then set_querySize Long.LONG_MAX o
            else o in
  o2 <- finishOptions o1 ;;
  Returned (store o2).

(** One turn of the [switch]; [None] is the [return false] of the cases
    ['?'] and [':']. *)
Definition parseOption (p : parsed) (o : Options)
  : outcome (option Options) :=
  let '(opt, optarg) := p in
  if Ascii.eqb opt "c" then
    v <- of_option (Numbers.dehumanize_string optarg) ;;
    Returned (Some (set_chunkSize v o))
  else if Ascii.eqb opt "h" then Returned (Some o)
  else if Ascii.eqb opt "i" then
    Returned (Some (set_source (path_or "/dev/stdin" optarg) o))
  else if Ascii.eqb opt "n" then
    v <- to_long_number optarg ;;
    Returned (Some (set_chunksMaxCount v o))
  else if Ascii.eqb opt "s" then
    v <- of_option (Numbers.dehumanize_string optarg) ;;
    Returned (Some (set_querySize v o))
  else if Ascii.eqb opt "P" then Returned (Some (set_showProgress false o))
  else if Ascii.eqb opt "t" then
    x <- of_option (Numbers.readNumber (list_ascii_of_string optarg)) ;;
    Returned (Some (set_timeoutSeconds x o))
  else if Ascii.eqb opt "w" then
    v <- to_long_number optarg ;;
    Returned (Some (set_waitingTimeMilliseconds v o))
  else if Ascii.eqb opt "?" || Ascii.eqb opt ":" then Returned None
  else Returned (Some o).

Fixpoint parseLoop (args : list parsed) (o : Options)
  : outcome (bool * Options) :=
  match args with
  | [] => Returned (true, o)
  | p :: args' =>
      r <- parseOption p o ;;
      match r with
      | Some o' => parseLoop args' o'
      | None => Returned (false, o)
      end
  end.

Definition parseArguments (args : list parsed) (g : global)
  : outcome (bool * global) :=
  let '(o, _) := getInstance g in
  r <- parseLoop args o ;;
  Returned (fst r, store (snd r)).

(** The local variables of [fileRead] that live across the loop. *)
Record locals : Type := {
  result : bool;
  totalRead : Z;
  chunksCount : Z;
  totalElapsed : Double.double;
  totalReadingElapsed : Double.double;
  ifs : IOS.ifstream;
  ofs : IOS.ofstream;
  ticks : nat               (* readings of the clock so far *)
}.

(** The first operand of the test that opens the loop body. *)
Definition timed_out (o : Options) (st : locals) : bool :=
  Double.gtb (totalElapsed st) (timeoutSeconds o).

(** Its second operand, [chunksCount++ > options->chunksMaxCount], on the
    value that [chunksCount] has before the increment. *)
Definition budget_spent (o : Options) (st : locals) : bool :=
  chunksCount st >? chunksMaxCount o.

Definition body (o : Options) (clk : clock) (st : locals) : flow * locals :=
  if timed_out o st then
    (Break,
     {| result := true; totalRead := totalRead st;
        chunksCount := chunksCount st;
        totalElapsed := totalElapsed st;
        totalReadingElapsed := totalReadingElapsed st;
        ifs := ifs st; ofs := ofs st; ticks := ticks st |})
  else if budget_spent o st then
    (Break,
     {| result := true; totalRead := totalRead st;
        chunksCount := Long.add (chunksCount st) 1;
        totalElapsed := totalElapsed st;
        totalReadingElapsed := totalReadingElapsed st;
        ifs := ifs st; ofs := ofs st; ticks := ticks st |})
  else
    let start := clk (ticks st) in
    let '(_, ifs') := IOS.read (chunkSize o) (ifs st) in
    let readEnd := clk (S (ticks st)) in
    let bytesRead := IOS.gcount ifs' in
    let grossEnd := clk (S (S (ticks st))) in
    let st' :=
      {| result := result st;
         totalRead := Long.add (totalRead st) bytesRead;
         chunksCount := Long.add (chunksCount st) 1;
         totalElapsed :=
           Double.add (totalElapsed st) (seconds_between start grossEnd);
         totalReadingElapsed :=
           Double.add (totalReadingElapsed st)
                      (seconds_between start readEnd);
         ifs := ifs'; ofs := ofs st;
         ticks := S (S (S (ticks st))) |} in
    (if IOS.ok ifs' && IOS.ook (ofs st) then Again else Leave, st').

Fixpoint loop (fuel : nat) (o : Options) (clk : clock) (st : locals)
  : outcome locals :=
  match fuel with
  | O => OutOfFuel
  | S fuel' =>
      match body o clk st with
      | (Again, st') => loop fuel' o clk st'
      | (_, st') => Returned st'
      end
  end.

(** The locals when the loop is entered. *)
Definition entry (i : IOS.ifstream) (f : IOS.ofstream) : locals :=
  {| result := false; totalRead := 0; chunksCount := 0;
     totalElapsed := Double.zero; totalReadingElapsed := Double.zero;
     ifs := i; ofs := f; ticks := 0 |}.

(** [fileRead]: the locals at its [return] when the loop ran, and the
    value returned.  The buffer is a [std::vector<char>] of [chunkSize]
    elements, whose constructor throws when it does not get them; the
    exception is not caught.  Opening the destination empties the file
    there, which the source stream reads when it is the same file. *)
Definition fileRead_locals (fs : IOS.filesystem) (clk : clock)
           (fuel : nat) (o : Options) : outcome (option locals) :=
  if negb (IOS.allocates fs (chunkSize o)) then Aborted
  else
    let i := IOS.open_in fs (source o) in
    if IOS.ok i then
      let f := IOS.open_out fs (destination o) in
      if IOS.ook f then
        st <- loop fuel o clk
                   (entry (IOS.shared (destination o) f (source o) i) f) ;;
        Returned (Some st)
      else Returned None
    else Returned None.

Definition fileRead (fs : IOS.filesystem) (clk : clock) (fuel : nat)
           (g : global) : outcome (bool * global) :=
  let '(o, g1) := getInstance g in
  r <- fileRead_locals fs clk fuel o ;;
  Returned (match r with Some st => result st | None => false end, g1).

(** [main], on the options that [getopt] finds in [argv]; the value is the
    exit status. *)
Definition main (fs : IOS.filesystem) (clk : clock) (fuel : nat)
           (args : list parsed) : outcome Z :=
  r1 <- parseArguments args nullptr ;;
  g2 <- processOptions (snd r1) ;;
  r3 <- fileRead fs clk fuel g2 ;;
  Returned (if fst r3 then 0 else 1).

(** The test that opens the loop body:
    [totalElapsed > timeoutSeconds || chunksCount++ > chunksMaxCount]. *)
Definition limit_hit (o : Options) (st : locals) : bool :=
  timed_out o st || budget_spent o st.

(** The loop condition [ifs && ofs] as it stands after the [read] of a
    pass that starts with the locals [st]. *)
Definition streams_hold (o : Options) (st : locals) : bool :=
  IOS.ok (snd (IOS.read (chunkSize o) (ifs st))) && IOS.ook (ofs st).

(** [iterates o clk st st']: the loop gets from the head of a pass with
    locals [st] to the head of a later pass with locals [st']. *)
Inductive iterates (o : Options) (clk : clock) : locals -> locals -> Prop :=
| iterates_here : forall st, iterates o clk st st
| iterates_pass : forall st st' st'',
    body o clk st = (Again, st') ->
    iterates o clk st' st'' ->
    iterates o clk st st''.

(** The locals with which the loop is entered: the buffer could be
    allocated and both streams are open. *)
Definition loop_entered (fs : IOS.filesystem) (o : Options)
  : option locals :=
  let i := IOS.open_in fs (source o) in
  let f := IOS.open_out fs (destination o) in
  if IOS.allocates fs (chunkSize o) && IOS.ok i && IOS.ook f
  then Some (entry (IOS.shared (destination o) f (source o) i) f)
  else None.

(** The loop is stopped by the timeout or by the budget of chunks. *)
Definition stopped_by_limit (fs : IOS.filesystem) (clk : clock)
           (o : Options) : Prop :=
  exists st0 st,
    loop_entered fs o = Some st0 /\ iterates o clk st0 st
    /\ limit_hit o st = true.

(** The loop ends because a stream has failed -- the source is at its end
    or the read failed -- in a pass that neither limit stops. *)
Definition stream_ended_first (fs : IOS.filesystem) (clk : clock)
           (o : Options) : Prop :=
  exists st0 st,
    loop_entered fs o = Some st0 /\ iterates o clk st0 st
    /\ limit_hit o st = false /\ streams_hold o st = false.

End Reader.

(* ================================================================== *)
(** ** The copier: [fileLength], [processOptions], [fileCopy], [main] *)

Module Copier.
Import Config.

(** [fileLength]: the value returned and the stream afterwards.  (The
    [fileMutex] it holds meanwhile has no other taker: the program has a
    single thread.) *)
Definition fileLength (fs : IOS.ifstream) : Z * IOS.ifstream :=
  let '(currentPos, fs1) := IOS.tellg fs in
  let fs2 := IOS.seekg 0 IOS.end_ fs1 in
  let '(length, fs3) := IOS.tellg fs2 in
  let fs4 := IOS.seekg currentPos IOS.beg fs3 in
  (length, fs4).

Definition processOptions (fileSize : Z) (g : global) : outcome global :=
  let '(o, _) := getInstance g in
  let o1 := if querySize o =? -1 then set_querySize fileSize o else o in
  o2 <- finishOptions o1 ;;
  Returned (store o2).

Definition parseOption (p : parsed) (o : Options)
  : outcome (option Options) :=
  let '(opt, optarg) := p in
  if Ascii.eqb opt "c" then
    v <- of_option (Numbers.dehumanize_string optarg) ;;
    Returned (Some (set_chunkSize v o))
  else if Ascii.eqb opt "h" then Returned (Some o)
  else if Ascii.eqb opt "i" then
    Returned (Some (set_source (path_or "/dev/stdin" optarg) o))
  else if Ascii.eqb opt "j" then Returned (Some o)   (* value dropped *)
  else if Ascii.eqb opt "n" then
    v <- to_long_number optarg ;;
    Returned (Some (set_chunksMaxCount v o))
  else if Ascii.eqb opt "o" then
    Returned (Some (set_destination (path_or "/dev/stdout" optarg) o))
  else if Ascii.eqb opt "s" then
    v <- of_option (Numbers.dehumanize_string optarg) ;;
    Returned (Some (set_querySize v o))
  else if Ascii.eqb opt "P" then Returned (Some (set_showProgress false o))
  else if Ascii.eqb opt "t" then
    x <- of_option (Numbers.readNumber (list_ascii_of_string optarg)) ;;
    Returned (Some (set_timeoutSeconds x o))
  else if Ascii.eqb opt "w" then
    v <- to_long_number optarg ;;
    Returned (Some (set_waitingTimeMilliseconds v o))
  else if Ascii.eqb opt "?" || Ascii.eqb opt ":" then Returned None
  else Returned (Some o).

Fixpoint parseLoop (args : list parsed) (o : Options)
  : outcome (bool * Options) :=
  match args with
  | [] => Returned (true, o)
  | p :: args' =>
      r <- parseOption p o ;;
      match r with
      | Some o' => parseLoop args' o'
      | None => Returned (false, o)
      end
  end.

Definition parseArguments (args : list parsed) (g : global)
  : outcome (bool * global) :=
  let '(o, _) := getInstance g in
  r <- parseLoop args o ;;
  Returned (fst r, store (snd r)).

(** The local variables of [fileCopy] that live across the loop. *)
Record locals : Type := {
  totalRead : Z;
  offset : Z;
  chunksCount : Z;
  totalElapsed : Double.double;
  totalReadingElapsed : Double.double;
  totalWritingElapsed : Double.double;
  ifs : IOS.ifstream;
  ofs : IOS.ofstream;
  ticks : nat
}.

Definition timed_out (o : Options) (st : locals) : bool :=
  Double.gtb (totalElapsed st) (timeoutSeconds o).

Definition budget_spent (o : Options) (st : locals) : bool :=
  chunksCount st >? chunksMaxCount o.

(** One pass.  The source stream is open on [source o] and the
    destination stream on [destination o]: the options keep both paths
    from the time the streams are opened.  [totalRead] and [offset] count
    the bytes read, whether or not the write has taken them. *)
Definition body (o : Options) (clk : clock) (st : locals) : flow * locals :=
  if timed_out o st then (Break, st)
  else if budget_spent o st then
    (Break,
     {| totalRead := totalRead st; offset := offset st;
        chunksCount := Long.add (chunksCount st) 1;
        totalElapsed := totalElapsed st;
        totalReadingElapsed := totalReadingElapsed st;
        totalWritingElapsed := totalWritingElapsed st;
        ifs := ifs st; ofs := ofs st; ticks := ticks st |})
  else
    let start := clk (ticks st) in
    let '(data, ifs') :=
      IOS.read (chunkSize o) (IOS.seekg (offset st) IOS.beg (ifs st)) in
    let readEnd := clk (S (ticks st)) in
    let bytesRead := IOS.gcount ifs' in
    let ofs' := IOS.write data (IOS.seekp (offset st) (ofs st)) in
    let ifs2 := IOS.shared (destination o) ofs' (source o) ifs' in
    let writeEnd := clk (S (S (ticks st))) in
    let grossEnd := clk (S (S (S (ticks st)))) in
    let st' :=
      {| totalRead := Long.add (totalRead st) bytesRead;
         offset := Long.add (offset st) bytesRead;
         chunksCount := Long.add (chunksCount st) 1;
         totalElapsed :=
           Double.add (totalElapsed st) (seconds_between start grossEnd);
         totalReadingElapsed :=
           Double.add (totalReadingElapsed st)
                      (seconds_between start readEnd);
         totalWritingElapsed :=
           Double.add (totalWritingElapsed st)
                      (seconds_between readEnd writeEnd);
         ifs := ifs2; ofs := ofs';
         ticks := S (S (S (S (ticks st)))) |} in
    (if IOS.ok ifs2 && IOS.ook ofs' then Again else Leave, st').

Fixpoint loop (fuel : nat) (o : Options) (clk : clock) (st : locals)
  : outcome locals :=
  match fuel with
  | O => OutOfFuel
  | S fuel' =>
      match body o clk st with
      | (Again, st') => loop fuel' o clk st'
      | (_, st') => Returned st'
      end
  end.

Definition entry (i : IOS.ifstream) (f : IOS.ofstream) : locals :=
  {| totalRead := 0; offset := 0; chunksCount := 0;
     totalElapsed := Double.zero; totalReadingElapsed := Double.zero;
     totalWritingElapsed := Double.zero;
     ifs := i; ofs := f; ticks := 0 |}.

(** What [fileCopy] knows at its [return]: the length it measured and the
    locals, when the loop ran. *)
Record report : Type := {
  fileSize : Z;
  final : locals
}.

Definition fileCopy_report (fs : IOS.filesystem) (clk : clock)
           (fuel : nat) (g : global) : outcome (option report * global) :=
  let '(o, g1) := getInstance g in
  if negb (IOS.allocates fs (chunkSize o)) then Aborted
  else
    let i := IOS.open_in fs (source o) in
    if IOS.ok i then
      let '(size, i1) := fileLength i in
      g2 <- processOptions size g1 ;;
      let '(o2, _) := getInstance g2 in
      let f := IOS.open_out fs (destination o2) in
      if IOS.ook f then
        st <- loop fuel o2 clk
                   (entry (IOS.shared (destination o2) f (source o2) i1)
                          f) ;;
        Returned (Some {| fileSize := size; final := st |}, g2)
      else Returned (None, g2)
    else Returned (None, g1).

(** [fileCopy]: [return fileSize == totalRead] after the loop, [false]
    when a stream could not be opened. *)
Definition fileCopy (fs : IOS.filesystem) (clk : clock) (fuel : nat)
           (g : global) : outcome (bool * global) :=
  r <- fileCopy_report fs clk fuel g ;;
  Returned (match fst r with
            | Some rep => fileSize rep =? totalRead (final rep)
            | None => false
            end, snd r).

Definition main (fs : IOS.filesystem) (clk : clock) (fuel : nat)
           (args : list parsed) : outcome Z :=
  r1 <- parseArguments args nullptr ;;
  r2 <- fileCopy fs clk fuel (snd r1) ;;
  Returned (if fst r2 then 0 else 1).

(** What holds of the locals between two passes when the source holds the
    bytes [c]: the destination holds the first [offset] of them. *)
Definition copied (c : list Byte.byte) (st : locals) : Prop :=
  IOS.content (ifs st) = c
  /\ totalRead st = offset st
  /\ 0 <= offset st <= Z.of_nat (List.length c)
  /\ IOS.written (ofs st) = firstn (Z.to_nat (offset st)) c
  /\ IOS.is_good (IOS.wrstate (ofs st)) = true.

(** What holds of them when the loop is left: the last write may have
    failed, so the destination holds some first bytes of the source, and
    the first [offset] of them when the stream has not failed. *)
Definition stopped (c : list Byte.byte) (st : locals) : Prop :=
  totalRead st = offset st
  /\ 0 <= offset st <= Z.of_nat (List.length c)
  /\ (exists j : nat,
         (j <= Z.to_nat (offset st))%nat
         /\ IOS.written (ofs st) = firstn j c)
  /\ (IOS.ook (ofs st) = true ->
      IOS.written (ofs st) = firstn (Z.to_nat (offset st)) c).

End Copier.

(* ================================================================== *)
(** ** The interface [mount/readdata.h] *)

Module ReadData.
Local Open Scope string_scope.

(** The types that occur in the declarations. *)
Inductive ctype : Type :=
| Tvoid
| Tint
| Tbool
| Tdouble
| Tuint32
| Tuint64
| Tpointer (t : ctype)          (* [t*] *)
| Treference (name : string).   (* [name&] *)

Record declaration : Type := {
  symbol : string;
  returns : ctype;
  parameters : list (string * ctype)
}.

Definition read_data_get_wave_read_timeout_ms : declaration :=
  {| symbol := "read_data_get_wave_read_timeout_ms";
     returns := Tuint32; parameters := [] |}.

Definition read_data_get_connect_timeout_ms : declaration :=
  {| symbol := "read_data_get_connect_timeout_ms";
     returns := Tuint32; parameters := [] |}.

Definition read_data_get_total_read_timeout_ms : declaration :=
  {| symbol := "read_data_get_total_read_timeout_ms";
     returns := Tuint32; parameters := [] |}.

Definition read_data_get_prefetchxorstripes : declaration :=
  {| symbol := "read_data_get_prefetchxorstripes";
     returns := Tbool; parameters := [] |}.

Definition read_inode_ops : declaration :=
  {| symbol := "read_inode_ops";
     returns := Tvoid; parameters := [("inode", Tuint32)] |}.

Definition read_data_new : declaration :=
  {| symbol := "read_data_new";
     returns := Tpointer Tvoid; parameters := [("inode", Tuint32)] |}.

Definition read_data_end : declaration :=
  {| symbol := "read_data_end";
     returns := Tvoid; parameters := [("rr", Tpointer Tvoid)] |}.

Definition read_data : declaration :=
  {| symbol := "read_data";
     returns := Tint;
     parameters := [("rr", Tpointer Tvoid); ("offset", Tuint64);
                    ("size", Tuint32);
                    ("ret", Treference "ReadCache::Result")] |}.

Definition read_data_freebuff : declaration :=
  {| symbol := "read_data_freebuff";
     returns := Tvoid; parameters := [("rr", Tpointer Tvoid)] |}.

Definition read_data_init : declaration :=
  {| symbol := "read_data_init";
     returns := Tvoid;
     parameters :=
       [("retries", Tuint32);
        ("chunkserverRoundTripTime_ms", Tuint32);
        ("chunkserverConnectTimeout_ms", Tuint32);
        ("chunkServerWaveReadTimeout_ms", Tuint32);
        ("chunkserverTotalReadTimeout_ms", Tuint32);
        ("cache_expiration_time_ms", Tuint32);
        ("readahead_max_window_size_kB", Tuint32);
        ("prefetchXorStripes", Tbool);
        ("bandwidth_overuse", Tdouble)] |}.

Definition read_data_term : declaration :=
  {| symbol := "read_data_term"; returns := Tvoid; parameters := [] |}.

Definition read_data_second_buffer : declaration :=
  {| symbol := "read_data_second_buffer";
     returns := Tpointer Tvoid; parameters := [("args", Tpointer Tvoid)] |}.

(** The header, in the order of its declarations. *)
Definition header : list declaration :=
  [read_data_get_wave_read_timeout_ms; read_data_get_connect_timeout_ms;
   read_data_get_total_read_timeout_ms; read_data_get_prefetchxorstripes;
   read_inode_ops; read_data_new; read_data_end; read_data;
   read_data_freebuff; read_data_init; read_data_term;
   read_data_second_buffer].

(** A pointer that says nothing about what it points to. *)
Definition is_untyped_pointer (t : ctype) : bool :=
  match t with
  | Tpointer Tvoid => true
  | _ => false
  end.

Definition types_of (d : declaration) : list ctype :=
  map snd (parameters d).


(** *** What the parameters of [read_data_init] stand for *)

Inductive quantity : Type :=
| RetryCount
| RoundTripTime
| ConnectTimeout
| WaveReadTimeout
| TotalReadTimeout
| CacheExpiry
| ReadaheadWindow
| PrefetchXorStripes
| BandwidthOveruse.

Inductive measure : Type :=
| Plain
| Milliseconds
| Kilobytes.

Fixpoint ends_with (suffix : list ascii) (s : list ascii) : bool :=
  match s with
  | [] => match suffix with [] => true | _ :: _ => false end
  | _ :: s' =>
      if Nat.eqb (List.length s) (List.length suffix)
      then if list_eq_dec ascii_dec s suffix then true else false
      else ends_with suffix s'
  end.

(** The unit that a parameter carries in its name. *)
Definition measure_of (name : string) : measure :=
  if ends_with (list_ascii_of_string "_ms") (list_ascii_of_string name)
  then Milliseconds
  else if ends_with (list_ascii_of_string "_kB")
                    (list_ascii_of_string name)
       then Kilobytes else Plain.

Definition quantity_of (name : string) : option quantity :=
  if String.eqb name "retries" then Some RetryCount
  else if String.eqb name "chunkserverRoundTripTime_ms"
       then Some RoundTripTime
  else if String.eqb name "chunkserverConnectTimeout_ms"
       then Some ConnectTimeout
  else if String.eqb name "chunkServerWaveReadTimeout_ms"
       then Some WaveReadTimeout
  else if String.eqb name "chunkserverTotalReadTimeout_ms"
       then Some TotalReadTimeout
  else if String.eqb name "cache_expiration_time_ms" then Some CacheExpiry
  else if String.eqb name "readahead_max_window_size_kB"
       then Some ReadaheadWindow
  else if String.eqb name "prefetchXorStripes"
       then Some PrefetchXorStripes
  else if String.eqb name "bandwidth_overuse" then Some BandwidthOveruse
  else None.

Definition describe (p : string * ctype)
  : option quantity * measure * ctype :=
  (quantity_of (fst p), measure_of (fst p), snd p).

End ReadData.

(* ================================================================== *)
(** ** Sample runs *)

Module Sample.
Import Config.
Local Open Scope string_scope.

(** A file of eight bytes. *)
Definition eight : list Byte.byte :=
  [Byte.x61; Byte.x62; Byte.x63; Byte.x64;
   Byte.x65; Byte.x66; Byte.x67; Byte.x68].

Definition disk : IOS.filesystem :=
  {| IOS.files := [("data", eight)]; IOS.unwritable := [];
     IOS.capacity := [("/dev/full", 0%nat)]; IOS.memory := 2 ^ 31 |}.

(** A clock that advances by one nanosecond from reading to reading. *)
Definition steady : clock := fun k => Z.of_nat k.

(** [-i data -c 4 -s 8 -t 0]: eight bytes asked for in chunks of four,
    with a timeout of zero seconds. *)
Definition impatient : list parsed :=
  [("i"%char, "data"); ("c"%char, "4"); ("s"%char, "8");
   ("t"%char, "0")].

(** [-i data -c 4 -n 5]: chunks of four bytes, up to five of them. *)
Definition patient : list parsed :=
  [("i"%char, "data"); ("c"%char, "4"); ("n"%char, "5")].

(** [-i data -c 4 -n 0]: chunks of four bytes, a budget of none. *)
Definition frugal : list parsed :=
  [("i"%char, "data"); ("c"%char, "4"); ("n"%char, "0")].

(** [-i data -o copy -c 4] for the copier. *)
Definition duplicate : list parsed :=
  [("i"%char, "data"); ("o"%char, "copy"); ("c"%char, "4")].

(** The options as [main] of the reader has them before [fileRead]. *)
Definition reader_options (args : list parsed) : outcome global :=
  r <- Reader.parseArguments args nullptr ;;
  Reader.processOptions (snd r).

(** What [reader_options impatient] comes to. *)
Definition impatient_options : Options :=
  {| chunkSize := 4; chunksMaxCount := 2; source := "data";
     destination := "/dev/null"; showProgress := true; querySize := 8;
     timeoutSeconds := Double.zero; waitingTimeMilliseconds := 0 |}.

(** What [reader_options patient] comes to. *)
Definition patient_options : Options :=
  {| chunkSize := 4; chunksMaxCount := 5; source := "data";
     destination := "/dev/null"; showProgress := true;
     querySize := Long.LONG_MAX;
     timeoutSeconds := Double.MAXFLOAT; waitingTimeMilliseconds := 0 |}.

(** The value of [totalRead] when [fileRead] returns. *)
Definition transferred (r : outcome (option Reader.locals)) : option Z :=
  match r with
  | Returned (Some st) => Some (Reader.totalRead st)
  | _ => None
  end.

(** The stream on [data] after a [read] of nine characters: all eight
    are taken, and [eofbit] and [failbit] are set. *)
Definition exhausted : IOS.ifstream :=
  snd (IOS.read 9 (IOS.open_in disk "data")).

End Sample.

(* ================================================================== *)
(** ** The unit of a size, read off the end of the string *)

Module Units.
Import Chars Regex.








End Units.

(* ================================================================== *)
(** ** What the loops keep *)

Module Invariants.
Import Config.

(** An option that [getopt] reports as unknown (['?']) or as lacking its
    argument ([':']). *)
Definition rejected (p : parsed) : bool :=
  Ascii.eqb (fst p) "?" || Ascii.eqb (fst p) ":".

(** The most passes that read a chunk under the budget of the options. *)
Definition passes_allowed (o : Options) : Z :=
  Z.max 0 (chunksMaxCount o + 1).

(** The bytes that a loop finds in a source that held [c] when it was
    opened: none when the destination, opened after it, is the same
    file. *)
Definition source_bytes (o : Options) (c : list Byte.byte)
  : list Byte.byte :=
  if IOS.same_file (destination o) (source o) then [] else c.

(** What holds of the locals of [fileRead] at the head of every pass, when
    the source holds the bytes [c]. *)
Definition reading (c : list Byte.byte) (o : Options)
           (st : Reader.locals) : Prop :=
  IOS.content (Reader.ifs st) = c
  /\ IOS.is_good (IOS.rdstate (Reader.ifs st)) = true
  /\ IOS.ook (Reader.ofs st) = true
  /\ Reader.result st = false
  /\ Reader.totalRead st = Z.of_N (IOS.gpos (Reader.ifs st))
  /\ Reader.totalRead st = Reader.chunksCount st * chunkSize o
  /\ 0 <= Reader.chunksCount st <= passes_allowed o
  /\ Reader.totalRead st <= Z.of_nat (List.length c).

(** What holds of them when the loop is left. *)
Definition read_out (c : list Byte.byte) (o : Options)
           (fin : Reader.locals) : Prop :=
  Reader.totalRead fin = Z.of_N (IOS.gpos (Reader.ifs fin))
  /\ 0 <= Reader.totalRead fin <= Z.of_nat (List.length c)
  /\ Reader.totalRead fin <= passes_allowed o * chunkSize o
  /\ (Reader.result fin = false ->
      Reader.totalRead fin = Z.of_nat (List.length c))
  /\ (Reader.result fin = true ->
      Reader.timed_out o fin = true
      \/ (chunksMaxCount o + 1) * chunkSize o <= Reader.totalRead fin).

(** The same for [fileCopy]. *)
Definition copying (c : list Byte.byte) (o : Options)
           (st : Copier.locals) : Prop :=
  Copier.copied c st
  /\ IOS.ok (Copier.ifs st) = true
  /\ Copier.offset st = Copier.chunksCount st * chunkSize o
  /\ 0 <= Copier.chunksCount st <= passes_allowed o.

Definition copy_out (c : list Byte.byte) (o : Options)
           (fin : Copier.locals) : Prop :=
  Copier.stopped c fin
  /\ Copier.totalRead fin <= passes_allowed o * chunkSize o
  /\ (Copier.totalRead fin = Z.of_nat (List.length c)
      \/ Copier.timed_out o fin = true
      \/ (chunksMaxCount o + 1) * chunkSize o <= Copier.totalRead fin
      \/ IOS.ook (Copier.ofs fin) = false).

End Invariants.

(* ================================================================== *)
(** * Properties *)

(** ** Regular expressions *)

Module RegexFacts.
Import Regex.

Section OneCharacter.
Variable step : list ascii -> (list ascii -> bool) -> bool.
Variable P : ascii -> bool.
Hypothesis step_one :
  forall s k, step s k = match s with
                         | a :: s' => P a && k s'
                         | [] => false
                         end.

End OneCharacter.





End RegexFacts.

(** ** Binary64: the integers below [2^53] are exact *)

Module DoubleFacts.
Import Double.









End DoubleFacts.

(** ** [strtod] and [dehumanize] on digits followed by a unit *)

Module NumbersFacts.
Import Chars Regex Numbers RegexFacts.

Lemma is_digit_cases :
  forall a, is_digit a = true ->
            In a (list_ascii_of_string "0123456789").
Proof.
  intros [[] [] [] [] [] [] [] []] H; vm_compute in H;
    try discriminate H; simpl; auto 12.
Qed.



Lemma digit_not_comma :
  forall a, is_digit a = true -> Ascii.eqb a "," = false.
Proof.
  intros a H. apply is_digit_cases in H. simpl in H.
  repeat (destruct H as [<- | H]; [reflexivity|]). contradiction.
Qed.







Example strtod_reads_digits :
  map dehumanize_string ["64MiB"; "12K"; "7"; " +5M"; "-4K"; "abc"]%string
  = [Some 67108864; Some 12288; Some 7; Some 5242880; Some (-4096); Some 0].
Proof. vm_compute. reflexivity. Qed.

Example strtod_outside_the_model :
  map dehumanize_string ["1.5K"; "1e3"; "0x10"; "inf"; "-NaN"]%string
  = [None; None; None; None; None].
Proof. vm_compute. reflexivity. Qed.

(** *** The three patterns *)

Example patterns_on_samples :
  map (fun s => (regex_match (list_ascii_of_string s) re_kibi,
                 regex_match (list_ascii_of_string s) re_mebi,
                 regex_match (list_ascii_of_string s) re_gibi))
      ["5K"; "5KiB"; "5M"; "5G"; "G"; ",,GiB"; "5,G"; "5Ki"; "K5"]%string
  = [(true, false, false); (true, false, false); (false, true, false);
     (false, false, false); (false, false, true); (false, false, true);
     (false, false, false); (false, false, false); (false, false, false)].
Proof. vm_compute. reflexivity. Qed.













End NumbersFacts.

(** ** The loop of [fileRead] *)

Module ReaderFacts.
Import Config Reader.

Lemma body_limit :
  forall o clk st,
    limit_hit o st = true ->
    fst (body o clk st) = Break /\ result (snd (body o clk st)) = true.
Proof.
  intros o clk st H. unfold limit_hit in H. unfold body.
  destruct (timed_out o st); [simpl; auto|].
  simpl in H. rewrite H. simpl; auto.
Qed.

Lemma body_no_limit :
  forall o clk st,
    limit_hit o st = false ->
    fst (body o clk st) = (if streams_hold o st then Again else Leave)
    /\ result (snd (body o clk st)) = result st.
Proof.
  intros o clk st H. unfold limit_hit in H.
  apply orb_false_iff in H. destruct H as [H1 H2].
  unfold body, streams_hold. rewrite H1, H2.
  destruct (IOS.read (chunkSize o) (ifs st)) as [data ifs']. simpl. auto.
Qed.

Lemma body_again :
  forall o clk st st',
    body o clk st = (Again, st') ->
    limit_hit o st = false /\ streams_hold o st = true
    /\ result st' = result st.
Proof.
  intros o clk st st' E.
  destruct (limit_hit o st) eqn:L.
  - destruct (body_limit o clk st L) as [F _]. rewrite E in F.
    discriminate F.
  - destruct (body_no_limit o clk st L) as [F R]. rewrite E in F, R.
    simpl in F, R. destruct (streams_hold o st); [auto | discriminate F].
Qed.

Lemma iterates_result :
  forall o clk st st',
    iterates o clk st st' -> result st' = result st.
Proof.
  intros o clk st st' H. induction H as [st | st st' st'' E _ IH].
  - reflexivity.
  - rewrite IH. apply (body_again o clk st st' E).
Qed.

(** The loop follows one path: two passes that both end it are the same
    pass. *)
Lemma iterates_last_unique :
  forall o clk st a b,
    iterates o clk st a -> iterates o clk st b ->
    fst (body o clk a) <> Again -> fst (body o clk b) <> Again ->
    a = b.
Proof.
  intros o clk st a b Ha. revert b.
  induction Ha as [st | st st' st'' E _ IH]; intros b Hb Fa Fb.
  - destruct Hb as [st | st st1 st2 E1 _]; [reflexivity|].
    rewrite E1 in Fa. simpl in Fa. congruence.
  - destruct Hb as [st | st st1 st2 E1 Hb].
    + rewrite E in Fb. simpl in Fb. congruence.
    + rewrite E in E1. injection E1 as <-. apply IH; assumption.
Qed.

Lemma loop_returned :
  forall o clk fuel st fin,
    loop fuel o clk st = Returned fin ->
    exists last,
      iterates o clk st last /\ fst (body o clk last) <> Again
      /\ snd (body o clk last) = fin.
Proof.
  intros o clk fuel. induction fuel as [|fuel IH]; intros st fin H.
  - discriminate H.
  - simpl in H. destruct (body o clk st) as [f st'] eqn:E.
    destruct f.
    + injection H as <-. exists st. rewrite E. simpl.
      repeat split; [constructor | discriminate].
    + destruct (IH st' fin H) as (last & Hit & Hf & Hs).
      exists last. repeat split; try assumption.
      eapply iterates_pass; eassumption.
    + injection H as <-. exists st. rewrite E. simpl.
      repeat split; [constructor | discriminate].
Qed.

(** Fuel enough for the passes of a path lets [loop] walk it. *)
Lemma loop_walks :
  forall o clk st last,
    iterates o clk st last -> fst (body o clk last) <> Again ->
    exists fuel0, forall fuel,
        (fuel0 <= fuel)%nat ->
        loop fuel o clk st = Returned (snd (body o clk last)).
Proof.
  intros o clk st last H Hf.
  induction H as [st | st st' st'' E _ IH].
  - exists 1%nat. intros fuel Hfuel.
    destruct fuel as [|fuel]; [lia|]. simpl.
    destruct (body o clk st) as [f st'] eqn:E. simpl in *.
    destruct f; congruence.
  - destruct (IH Hf) as (fuel0 & Hwalk). exists (S fuel0).
    intros fuel Hfuel. destruct fuel as [|fuel]; [lia|]. simpl.
    rewrite E. apply Hwalk. lia.
Qed.

Lemma fileRead_locals_entered :
  forall fs clk fuel o,
    fileRead_locals fs clk fuel o
    = if negb (IOS.allocates fs (chunkSize o)) then Aborted
      else match loop_entered fs o with
           | Some st0 => st <- loop fuel o clk st0 ;; Returned (Some st)
           | None => Returned None
           end.
Proof.
  intros fs clk fuel o. unfold fileRead_locals, loop_entered.
  destruct (IOS.allocates fs (chunkSize o)); [|reflexivity].
  destruct (IOS.ok (IOS.open_in fs (source o))); simpl; [|reflexivity].
  destruct (IOS.ook (IOS.open_out fs (destination o))); reflexivity.
Qed.

Lemma loop_entered_some :
  forall fs o st0,
    loop_entered fs o = Some st0 ->
    IOS.allocates fs (chunkSize o) = true /\ result st0 = false
    /\ chunksCount st0 = 0.
Proof.
  intros fs o st0 En. unfold loop_entered in En.
  destruct (IOS.allocates fs (chunkSize o)); [|discriminate En].
  destruct (_ && _ && _); [|discriminate En].
  injection En as <-. auto.
Qed.

(** [fileRead] returns [true] exactly when a limit stops its loop. *)
Lemma fileRead_true_iff :
  forall fs clk fuel g b g',
    fileRead fs clk fuel g = Returned (b, g') ->
    (b = true <-> stopped_by_limit fs clk (fst (getInstance g))).
Proof.
  intros fs clk fuel g b g' H. unfold fileRead in H.
  destruct (getInstance g) as [o g1]. simpl.
  rewrite (fileRead_locals_entered fs clk fuel o) in H.
  unfold stopped_by_limit.
  destruct (IOS.allocates fs (chunkSize o)) eqn:Hc; [|discriminate H].
  cbn [negb] in H.
  destruct (loop_entered fs o) as [st0|] eqn:En.
  - destruct (loop fuel o clk st0) as [fin| | |] eqn:L;
      simpl in H; try discriminate H.
    injection H as <- <-.
    destruct (loop_returned o clk fuel st0 fin L)
      as (last & Hit & Hf & Hs).
    destruct (limit_hit o last) eqn:Hl.
    + destruct (body_limit o clk last Hl) as [_ R].
      rewrite Hs in R. rewrite R. split; [|reflexivity].
      intros _. exists st0, last. auto.
    + destruct (body_no_limit o clk last Hl) as [_ R].
      rewrite Hs in R. rewrite R, (iterates_result o clk st0 last Hit).
      destruct (loop_entered_some fs o st0 En) as (_ & -> & _).
      split; [discriminate|].
      intros (st0' & st & E0 & Hit' & Hl').
      injection E0 as <-.
      assert (last = st) as <-.
      { apply (iterates_last_unique o clk _ last st Hit Hit' Hf).
        destruct (body_limit o clk st Hl') as [F _]. rewrite F.
        discriminate. }
      congruence.
  - simpl in H. injection H as <- <-. split; [discriminate|].
    intros (st0 & st & E0 & _). discriminate E0.
Qed.

(** When a stream fails before a limit is hit, [fileRead] returns
    [false]. *)
Lemma fileRead_false_on_stream_end :
  forall fs clk g,
    stream_ended_first fs clk (fst (getInstance g)) ->
    exists fuel0, forall fuel,
        (fuel0 <= fuel)%nat ->
        fileRead fs clk fuel g = Returned (false, snd (getInstance g)).
Proof.
  intros fs clk g. unfold fileRead.
  destruct (getInstance g) as [o g1]. simpl.
  intros (st0 & st & En & Hit & Hl & Hs).
  destruct (body_no_limit o clk st Hl) as [F R]. rewrite Hs in F.
  destruct (loop_walks o clk st0 st Hit) as (fuel0 & Hwalk).
  { rewrite F. discriminate. }
  exists fuel0. intros fuel Hfuel.
  destruct (loop_entered_some fs o st0 En) as (Hc & Hr & _).
  rewrite (fileRead_locals_entered fs clk fuel o), Hc, En.
  rewrite (Hwalk fuel Hfuel). simpl.
  rewrite R, (iterates_result o clk st0 st Hit), Hr. reflexivity.
Qed.

(** When a limit stops the loop, [fileRead] returns [true]. *)
Lemma fileRead_true_on_limit :
  forall fs clk g,
    stopped_by_limit fs clk (fst (getInstance g)) ->
    exists fuel0, forall fuel,
        (fuel0 <= fuel)%nat ->
        fileRead fs clk fuel g = Returned (true, snd (getInstance g)).
Proof.
  intros fs clk g. unfold fileRead.
  destruct (getInstance g) as [o g1]. simpl.
  intros (st0 & st & En & Hit & Hl).
  destruct (body_limit o clk st Hl) as [F R].
  destruct (loop_walks o clk st0 st Hit) as (fuel0 & Hwalk).
  { rewrite F. discriminate. }
  exists fuel0. intros fuel Hfuel.
  destruct (loop_entered_some fs o st0 En) as (Hc & _ & _).
  rewrite (fileRead_locals_entered fs clk fuel o), Hc, En.
  rewrite (Hwalk fuel Hfuel). simpl. rewrite R. reflexivity.
Qed.

Example reader_runs :
  main Sample.disk Sample.steady 10 Sample.impatient = Returned 0
  /\ main Sample.disk Sample.steady 10 Sample.frugal = Returned 0
  /\ main Sample.disk Sample.steady 10 Sample.patient = Returned 1
  /\ main Sample.disk Sample.steady 2 Sample.patient = OutOfFuel
  /\ main Sample.disk Sample.steady 10 [("c"%char, "0"%string)] = Aborted.
Proof. repeat split; vm_compute; reflexivity. Qed.

(** The budget of chunks bounds the number of passes: with fuel for them
    the loop returns. *)
Lemma loop_returns :
  forall o clk,
    chunksMaxCount o < Long.LONG_MAX ->
    forall fuel st,
      0 <= chunksCount st ->
      (S (Z.to_nat (chunksMaxCount o + 1 - chunksCount st)) <= fuel)%nat ->
      exists fin, loop fuel o clk st = Returned fin.
Proof.
  intros o clk Hmax. unfold Long.LONG_MAX in Hmax.
  induction fuel as [|fuel IH]; intros st Hc Hfuel; [lia|].
  simpl. destruct (body o clk st) as [f st'] eqn:E.
  destruct f; try (eexists; reflexivity).
  destruct (body_again o clk st st' E) as (Hl & _ & _).
  unfold limit_hit in Hl. apply orb_false_iff in Hl.
  destruct Hl as [Ht Hb]. unfold budget_spent in Hb.
  pose proof Hb as Hb'. rewrite Z.gtb_ltb, Z.ltb_ge in Hb'.
  assert (chunksCount st' = chunksCount st + 1) as Hc'.
  { unfold body in E. unfold budget_spent in E. rewrite Ht, Hb in E.
    destruct (IOS.read (chunkSize o) (ifs st)) as [data ifs'].
    injection E as _ <-. simpl. unfold Long.add, Long.wrap64.
    rewrite Z.mod_small by lia. lia. }
  apply IH; rewrite Hc'; lia.
Qed.

Lemma fileRead_returns :
  forall fs clk o,
    IOS.allocates fs (chunkSize o) = true ->
    chunksMaxCount o < Long.LONG_MAX ->
    exists b, forall fuel,
        (S (Z.to_nat (chunksMaxCount o + 1)) <= fuel)%nat ->
        fileRead fs clk fuel (Some o) = Returned (b, Some o).
Proof.
  intros fs clk o Hc' Hmax.
  destruct (loop_entered fs o) as [st0|] eqn:En.
  - destruct (loop_entered_some fs o st0 En) as (_ & _ & Hz).
    destruct (loop_returns o clk Hmax
                (S (Z.to_nat (chunksMaxCount o + 1))) st0)
      as (fin & Hfin); [lia | rewrite Hz, Z.sub_0_r; lia |].
    destruct (loop_returned o clk _ st0 fin Hfin)
      as (last & Hit & Hf & Hs).
    exists (result fin). intros fuel Hfuel. unfold fileRead. simpl.
    rewrite (fileRead_locals_entered fs clk fuel o), Hc', En.
    destruct (loop_returns o clk Hmax fuel st0) as (fin' & Hfin');
      [lia | rewrite Hz, Z.sub_0_r; lia |].
    rewrite Hfin'. simpl.
    destruct (loop_returned o clk _ st0 fin' Hfin')
      as (last' & Hit' & Hf' & Hs').
    rewrite (iterates_last_unique o clk st0 last last' Hit Hit' Hf Hf')
      in Hs.
    rewrite <- Hs, <- Hs'. reflexivity.
  - exists false. intros fuel _. unfold fileRead. simpl.
    rewrite (fileRead_locals_entered fs clk fuel o), Hc', En.
    reflexivity.
Qed.

End ReaderFacts.

(** ** Streams and [fileLength] *)

Module StreamFacts.
Import IOS.

Lemma good_bits :
  forall st, is_good st = true -> st = goodbit.
Proof.
  intros [[] [] []] H; simpl in H; try discriminate H. reflexivity.
Qed.

Lemma tellg_good :
  forall s, is_good (rdstate s) = true ->
            tellg s = (Z.of_N (gpos s), s).
Proof.
  intros s H. unfold tellg, sentry. rewrite H.
  rewrite (good_bits _ H). reflexivity.
Qed.

Lemma seekg_good :
  forall off dir s,
    is_good (rdstate s) = true ->
    let base := match dir with
                | beg => 0
                | cur => Z.of_N (gpos s)
                | end_ => size s
                end in
    0 <= base + off ->
    seekg off dir s
    = {| content := content s; gpos := Z.to_N (base + off);
         rdstate := rdstate s; gcount := gcount s |}.
Proof.
  intros off dir [c p st n] H base Hb. simpl in H.
  rewrite (good_bits _ H) in *.
  assert ((base + off <? 0) = false) as Hlt by (apply Z.ltb_ge; exact Hb).
  unfold seekg, sentry, with_state. simpl.
  destruct dir; subst base; unfold size in *; simpl in *;
    rewrite Hlt; reflexivity.
Qed.

(** A stream that a failed operation has marked cannot be moved or
    asked for its position. *)
Lemma tellg_not_good :
  forall s, is_good (rdstate s) = false ->
            fst (tellg s) = -1
            /\ gpos (snd (tellg s)) = gpos s
            /\ content (snd (tellg s)) = content s
            /\ is_good (rdstate (snd (tellg s))) = false
            /\ failbit (rdstate (snd (tellg s))) = true.
Proof.
  intros [c p [[] [] []] n] H; simpl in H; try discriminate H;
    repeat split.
Qed.

Lemma seekg_failed :
  forall off dir s,
    failbit (rdstate s) = true ->
    gpos (seekg off dir s) = gpos s
    /\ content (seekg off dir s) = content s
    /\ is_good (rdstate (seekg off dir s)) = false
    /\ failbit (rdstate (seekg off dir s)) = true.
Proof.
  intros off dir [c p [[] [] []] n] H; simpl in H; try discriminate H;
    repeat split.
Qed.

Lemma open_in_found :
  forall fs path c,
    lookup path (files fs) = Some c ->
    open_in fs path = {| content := c; gpos := 0%N; rdstate := goodbit;
                         gcount := 0 |}.
Proof. intros fs path c H. unfold open_in. rewrite H. reflexivity. Qed.

Lemma open_in_ok :
  forall fs path,
    ok (open_in fs path) = true ->
    exists c, lookup path (files fs) = Some c.
Proof.
  intros fs path H. unfold open_in in H.
  destruct (lookup path (files fs)) as [c|]; [eauto | discriminate H].
Qed.

End StreamFacts.

(** ** The copier *)

Module CopierFacts.
Import Config Copier StreamFacts.

Lemma fileLength_good :
  forall s, IOS.is_good (IOS.rdstate s) = true ->
            fileLength s = (IOS.size s, s).
Proof.
  intros s H. unfold fileLength.
  rewrite (tellg_good s H).
  rewrite (seekg_good 0 IOS.end_ s H) by (unfold IOS.size; lia).
  rewrite tellg_good by exact H. cbn [IOS.gpos].
  rewrite seekg_good; cbn [IOS.gpos IOS.rdstate IOS.content IOS.gcount];
    [|exact H|lia].
  rewrite Z.add_0_r, Z2N.id by (unfold IOS.size; lia).
  rewrite Z.add_0_l, N2Z.id. destruct s; reflexivity.
Qed.

Lemma fileLength_not_good :
  forall s, IOS.is_good (IOS.rdstate s) = false ->
            fst (fileLength s) = -1
            /\ IOS.gpos (snd (fileLength s)) = IOS.gpos s
            /\ IOS.content (snd (fileLength s)) = IOS.content s.
Proof.
  intros s H. unfold fileLength.
  destruct (tellg_not_good s H) as (E1 & P1 & C1 & G1 & F1).
  destruct (IOS.tellg s) as [currentPos fs1]. simpl in *.
  destruct (seekg_failed 0 IOS.end_ fs1 F1) as (P2 & C2 & G2 & F2).
  destruct (tellg_not_good _ G2) as (E3 & P3 & C3 & G3 & F3).
  destruct (IOS.tellg (IOS.seekg 0 IOS.end_ fs1)) as [length fs3].
  simpl in *.
  destruct (seekg_failed currentPos IOS.beg fs3 F3) as (P4 & C4 & _).
  repeat split; congruence.
Qed.

(** The get position is where it was, whatever the state of the stream. *)
Lemma fileLength_position :
  forall s, IOS.gpos (snd (fileLength s)) = IOS.gpos s.
Proof.
  intros s. destruct (IOS.is_good (IOS.rdstate s)) eqn:H.
  - rewrite (fileLength_good s H). reflexivity.
  - apply (fileLength_not_good s H).
Qed.

Lemma firstn_add :
  forall (A : Type) (a b : nat) (l : list A),
    firstn (a + b) l = firstn a l ++ firstn b (skipn a l).
Proof.
  intros A a b. induction a as [|a IH]; intros l.
  - reflexivity.
  - destruct l as [|x l]; simpl.
    + rewrite firstn_nil. reflexivity.
    + rewrite IH. reflexivity.
Qed.

Lemma firstn_own_length :
  forall (A : Type) (n : nat) (l : list A),
    firstn (List.length (firstn n l)) l = firstn n l.
Proof.
  intros A n. induction n as [|n IH]; intros l.
  - reflexivity.
  - destruct l as [|x l]; simpl; [reflexivity|]. rewrite IH. reflexivity.
Qed.

Lemma overwrite_at_end :
  forall (a : nat) (c data : list Byte.byte),
    (a <= List.length c)%nat ->
    IOS.overwrite (firstn a c) a data = firstn a c ++ data.
Proof.
  intros a c data Ha. unfold IOS.overwrite.
  destruct data as [|x data]; [rewrite app_nil_r; reflexivity|].
  rewrite firstn_firstn, Nat.min_id, length_firstn, Nat.min_l by exact Ha.
  rewrite Nat.sub_diag, skipn_all2 by (rewrite length_firstn; lia).
  simpl. rewrite app_nil_r. reflexivity.
Qed.

(** Some first bytes of the bytes that a read has taken are bytes of the
    source. *)
Lemma firstn_of_chunk :
  forall (k n : nat) (l : list Byte.byte),
    firstn k (firstn n l)
    = firstn (List.length (firstn k (firstn n l))) l.
Proof.
  intros k n l. rewrite firstn_firstn. symmetry. apply firstn_own_length.
Qed.

Lemma copied_stopped :
  forall c st, copied c st -> stopped c st.
Proof.
  intros c st (_ & Ht & Ho & Hw & _). unfold stopped.
  split; [exact Ht|]. split; [exact Ho|]. split; [|intros _; exact Hw].
  exists (Z.to_nat (offset st)). split; [lia | exact Hw].
Qed.

Lemma good_not_bad :
  forall st, IOS.is_good st = true -> IOS.is_fail (IOS.set_bad st) = true.
Proof.
  intros st _. unfold IOS.is_fail, IOS.set_bad. simpl.
  apply orb_true_r.
Qed.

(** One pass: what holds when the loop is left after it, and what it hands
    to a next pass.  When the destination is the file of the source, the
    source holds no bytes. *)
Lemma body_copied :
  forall o clk c st f st',
    Z.of_nat (List.length c) < 2 ^ 63 ->
    (IOS.same_file (destination o) (source o) = true -> c = []) ->
    copied c st -> IOS.ok (ifs st) = true ->
    body o clk st = (f, st') ->
    stopped c st'
    /\ (f = Again -> copied c st' /\ IOS.ok (ifs st') = true).
Proof.
  intros o clk c st f st' Hlen Hsame Hcop Hok E.
  pose proof Hcop as (Hc & Ht & Ho & Hw & Hg).
  unfold body in E.
  destruct (timed_out o st).
  { injection E as <- <-. split; [|discriminate].
    apply copied_stopped. exact Hcop. }
  destruct (budget_spent o st).
  { injection E as <- <-. split; [|discriminate].
    apply copied_stopped. unfold copied. simpl.
    repeat split; assumption || apply Ho. }
  set (a := Z.to_nat (offset st)) in *.
  assert (N.to_nat (Z.to_N (offset st)) = a) as Ha
      by (unfold a; rewrite Z_N_nat; reflexivity).
  assert (a <= List.length c)%nat as Hac by (unfold a; lia).
  (* the seek *)
  assert (IOS.is_good (IOS.clear_eof (IOS.rdstate (ifs st))) = true) as Hgood.
  { unfold IOS.ok, IOS.is_fail in Hok. apply negb_true_iff in Hok.
    apply orb_false_iff in Hok. destruct Hok as [Hf Hb].
    unfold IOS.is_good, IOS.clear_eof. simpl. rewrite Hf, Hb. reflexivity. }
  assert (IOS.seekg (offset st) IOS.beg (ifs st)
          = {| IOS.content := c; IOS.gpos := Z.to_N (offset st);
               IOS.rdstate := IOS.goodbit;
               IOS.gcount := IOS.gcount (ifs st) |}) as Hseek.
  { unfold IOS.seekg, IOS.sentry, IOS.with_state. simpl.
    rewrite Hgood. rewrite (good_bits _ Hgood). simpl.
    replace (offset st <? 0) with false by (symmetry; apply Z.ltb_ge; lia).
    rewrite Hc. reflexivity. }
  rewrite Hseek in E. unfold IOS.read, IOS.sentry, IOS.available in E.
  simpl in E. rewrite Ha in E.
  set (data := firstn (Z.to_nat (chunkSize o)) (skipn a c)) in *.
  assert (List.length data <= List.length c - a)%nat as Hk.
  { unfold data. rewrite length_firstn, length_skipn. lia. }
  (* the write *)
  assert (IOS.seekp (offset st) (ofs st)
          = {| IOS.written := firstn a c; IOS.ppos := Z.to_N (offset st);
               IOS.wrstate := IOS.goodbit;
               IOS.room := IOS.room (ofs st) |}) as Hseekp.
  { unfold IOS.seekp, IOS.is_fail.
    rewrite (good_bits _ Hg). simpl.
    replace (offset st <? 0) with false by (symmetry; apply Z.ltb_ge; lia).
    rewrite Hw. reflexivity. }
  rewrite Hseekp in E. unfold IOS.write in E.
  cbn [IOS.wrstate IOS.written IOS.ppos IOS.room] in E.
  change (IOS.is_good IOS.goodbit) with true in E. cbv iota in E.
  rewrite Ha in E.
  set (k := IOS.fitting _ data) in *. clearbody k.
  set (part := firstn k data) in *.
  assert (part = firstn (List.length part) (skipn a c)) as Hpart
      by (unfold part, data; apply firstn_of_chunk).
  assert (List.length part <= List.length data)%nat as Hpl
      by (unfold part; rewrite length_firstn; lia).
  rewrite (overwrite_at_end a c part Hac) in E.
  assert (firstn a c ++ part = firstn (a + List.length part) c) as Hfile.
  { rewrite firstn_add, <- Hpart. reflexivity. }
  rewrite Hfile in E.
  assert (Long.add (offset st) (Z.of_nat (List.length data))
          = offset st + Z.of_nat (List.length data)) as Hadd.
  { unfold Long.add, Long.wrap64. rewrite Z.mod_small by lia. lia. }
  assert (Z.to_nat (offset st + Z.of_nat (List.length data))
          = (a + List.length data)%nat) as Hoff by (unfold a; lia).
  (* the bytes that the source stream finds afterwards *)
  assert (forall r n, 
             IOS.content
               (IOS.shared (destination o)
                  {| IOS.written := firstn (a + List.length part) c;
                     IOS.ppos := (Z.to_N (offset st) + N.of_nat k)%N;
                     IOS.wrstate := r; IOS.room := IOS.room (ofs st) |}
                  (source o)
                  {| IOS.content := c;
                     IOS.gpos := (Z.to_N (offset st)
                                  + N.of_nat (List.length data))%N;
                     IOS.rdstate := n;
                     IOS.gcount := Z.of_nat (List.length data) |}) = c)
    as Hcontent.
  { intros r n. unfold IOS.shared.
    destruct (IOS.same_file (destination o) (source o)) eqn:S;
      [|reflexivity].
    simpl. rewrite (Hsame eq_refl). apply firstn_nil. }
  injection E as Ef <-.
  destruct (Nat.eqb_spec k (List.length data)) as [Hall | Hsome].
  - (* the write has taken every byte *)
    assert (part = data) as Hpd
        by (unfold part; rewrite Hall; apply firstn_all).
    rewrite Hpd in *.
    assert (copied c
              {| totalRead :=
                   Long.add (totalRead st) (Z.of_nat (List.length data));
                 offset :=
                   Long.add (offset st) (Z.of_nat (List.length data));
                 chunksCount := Long.add (chunksCount st) 1;
                 totalElapsed :=
                   Double.add (totalElapsed st)
                     (seconds_between (clk (ticks st))
                        (clk (S (S (S (ticks st))))));
                 totalReadingElapsed :=
                   Double.add (totalReadingElapsed st)
                     (seconds_between (clk (ticks st))
                        (clk (S (ticks st))));
                 totalWritingElapsed :=
                   Double.add (totalWritingElapsed st)
                     (seconds_between (clk (S (ticks st)))
                        (clk (S (S (ticks st)))));
                 ifs :=
                   IOS.shared (destination o)
                     {| IOS.written := firstn (a + List.length data) c;
                        IOS.ppos := (Z.to_N (offset st) + N.of_nat k)%N;
                        IOS.wrstate := IOS.goodbit;
                        IOS.room := IOS.room (ofs st) |}
                     (source o)
                     {| IOS.content := c;
                        IOS.gpos := (Z.to_N (offset st)
                                     + N.of_nat (List.length data))%N;
                        IOS.rdstate :=
                          if Z.of_nat (List.length data) =? chunkSize o
                          then IOS.goodbit
                          else IOS.set_eof_fail IOS.goodbit;
                        IOS.gcount := Z.of_nat (List.length data) |};
                 ofs :=
                   {| IOS.written := firstn (a + List.length data) c;
                      IOS.ppos := (Z.to_N (offset st) + N.of_nat k)%N;
                      IOS.wrstate := IOS.goodbit;
                      IOS.room := IOS.room (ofs st) |};
                 ticks := S (S (S (S (ticks st)))) |}) as Hnext.
    { unfold copied. cbn [ifs ofs totalRead offset IOS.written IOS.wrstate].
      rewrite Hcontent, Ht, Hadd, Hoff.
      repeat split; try reflexivity; lia. }
    split; [apply copied_stopped; exact Hnext|].
    intros ->. split; [exact Hnext|]. cbn [ifs].
    match type of Ef with
    | (if ?x && _ then _ else _) = _ => destruct x eqn:X
    end; [reflexivity || exact X | simpl in Ef; discriminate Ef].
  - (* the device has not taken every byte *)
    split.
    + unfold stopped.
      cbn [ifs ofs totalRead offset IOS.written IOS.wrstate].
      rewrite Ht, Hadd, Hoff.
      split; [reflexivity|]. split; [lia|]. split.
      * exists (a + List.length part)%nat. split; [lia | reflexivity].
      * unfold IOS.ook. cbn [IOS.wrstate].
        rewrite good_not_bad by reflexivity. discriminate.
    + intros ->. exfalso.
      unfold IOS.ook in Ef. cbn [ofs IOS.wrstate] in Ef.
      rewrite good_not_bad in Ef by reflexivity.
      rewrite andb_false_r in Ef. discriminate Ef.
Qed.

Lemma loop_copied :
  forall o clk c fuel st fin,
    Z.of_nat (List.length c) < 2 ^ 63 ->
    (IOS.same_file (destination o) (source o) = true -> c = []) ->
    copied c st -> IOS.ok (ifs st) = true ->
    loop fuel o clk st = Returned fin ->
    stopped c fin.
Proof.
  intros o clk c fuel. induction fuel as [|fuel IH];
    intros st fin Hlen Hsame Hinv Hok H; [discriminate H|].
  simpl in H. destruct (body o clk st) as [f st'] eqn:E.
  destruct (body_copied o clk c st f st' Hlen Hsame Hinv Hok E)
    as [Hout Hnext].
  destruct f.
  - injection H as <-. exact Hout.
  - destruct (Hnext eq_refl) as [Hinv' Hok'].
    apply (IH st' fin Hlen Hsame Hinv' Hok' H).
  - injection H as <-. exact Hout.
Qed.

Lemma open_out_good :
  forall fs path,
    IOS.ook (IOS.open_out fs path) = true ->
    IOS.open_out fs path
    = {| IOS.written := []; IOS.ppos := 0%N; IOS.wrstate := IOS.goodbit;
         IOS.room := IOS.room_at path (IOS.capacity fs) |}.
Proof.
  intros fs path H. unfold IOS.open_out in *.
  destruct (existsb _ _); [discriminate H | reflexivity].
Qed.

Example copier_run :
  main Sample.disk Sample.steady 10 Sample.duplicate = Returned 0
  /\ main Sample.disk Sample.steady 10
       [("i"%char, "data"%string); ("c"%char, "4"%string);
        ("n"%char, "0"%string)] = Returned 1.
Proof. split; vm_compute; reflexivity. Qed.

(** Three runs at the edges of the machine: a copy of [data] onto itself
    finds the file emptied and fails with nothing read; a copy in one
    chunk to a device that is full succeeds, although the write has
    failed; and a chunk size beyond the memory of the process kills the
    reader in the allocation of its buffer. *)
Example edge_runs :
  main Sample.disk Sample.steady 10
       [("i"%char, "data"%string); ("o"%char, "data"%string);
        ("c"%char, "4"%string)] = Returned 1
  /\ main Sample.disk Sample.steady 10
          [("i"%char, "data"%string); ("o"%char, "/dev/full"%string);
           ("c"%char, "8"%string)] = Returned 0
  /\ Reader.main Sample.disk Sample.steady 10
                 [("i"%char, "data"%string);
                  ("c"%char, "4611686018427387904"%string);
                  ("n"%char, "1"%string)] = Aborted.
Proof. repeat split; vm_compute; reflexivity. Qed.

(** [fileCopy] answers [true] only when [totalRead] has reached the
    length of the source. *)
Lemma fileCopy_true :
  forall fs clk fuel g g',
    fileCopy fs clk fuel g = Returned (true, g') ->
    exists rep c,
      fileCopy_report fs clk fuel g = Returned (Some rep, g')
      /\ IOS.lookup (source (fst (getInstance g))) (IOS.files fs) = Some c
      /\ fileSize rep = Z.of_nat (List.length c)
      /\ totalRead (final rep) = Z.of_nat (List.length c).
Proof.
  intros fs clk fuel g g' H. unfold fileCopy in H.
  destruct (fileCopy_report fs clk fuel g) as [[r g1]| | |] eqn:R;
    simpl in H; try discriminate H.
  destruct r as [rep|]; [|discriminate H].
  injection H as H <-. apply Z.eqb_eq in H.
  unfold fileCopy_report in R.
  destruct (getInstance g) as [o g0]. simpl.
  destruct (IOS.allocates fs (chunkSize o)); [|discriminate R].
  cbn [negb] in R.
  destruct (IOS.ok (IOS.open_in fs (source o))) eqn:Hok;
    [|discriminate R].
  destruct (open_in_ok fs (source o) Hok) as (c & Hc).
  rewrite (open_in_found fs (source o) c Hc) in R.
  rewrite fileLength_good in R by reflexivity.
  destruct (processOptions _ g0) as [g2| | |]; simpl in R;
    try discriminate R.
  destruct (getInstance g2) as [o2 g3].
  destruct (IOS.ook (IOS.open_out fs (destination o2))) eqn:Hout;
    [|discriminate R].
  destruct (loop fuel o2 clk _) as [st| | |] eqn:L; simpl in R;
    try discriminate R.
  injection R as <- <-. simpl in *.
  exists {| fileSize := Z.of_nat (List.length c); final := st |}, c.
  repeat split; [exact Hc | symmetry; exact H].
Qed.

End CopierFacts.

(** ** The [Options] singleton *)

Module ConfigFacts.
Import Config.

Lemma getInstance_stored :
  forall g, snd (getInstance g) = Some (fst (getInstance g)).
Proof. intros [o|]; reflexivity. Qed.

Lemma getInstance_again :
  forall g, getInstance (snd (getInstance g)) = getInstance g.
Proof. intros [o|]; reflexivity. Qed.

Lemma finishOptions_querySize :
  forall o o', finishOptions o = Returned o' -> querySize o' = querySize o.
Proof.
  intros o o' H. unfold finishOptions in H.
  destruct (chunksMaxCount o =? -1).
  - destruct (long_div (querySize o) (chunkSize o)) as [n| | |];
      simpl in H; try discriminate H.
    destruct (Double.eqb _ _); injection H as <-; reflexivity.
  - simpl in H. destruct (Double.eqb _ _); injection H as <-; reflexivity.
Qed.

(** [processOptions] of the reader assigns through the instance. *)
Lemma processOptions_stores :
  forall g g',
    Reader.processOptions g = Returned g' ->
    exists o',
      g' = Some o'
      /\ querySize o'
         = (if querySize (fst (getInstance g)) =? -1 then Long.LONG_MAX
            else querySize (fst (getInstance g))).
Proof.
  intros g g' H. unfold Reader.processOptions in H.
  destruct (getInstance g) as [o g1]. simpl.
  destruct (finishOptions _) as [o2| | |] eqn:F; simpl in H;
    try discriminate H.
  injection H as <-. exists o2. split; [reflexivity|].
  rewrite (finishOptions_querySize _ _ F).
  destruct (querySize o =? -1); reflexivity.
Qed.

(** [processOptions] of the copier does, with the length of the source
    in the place of [INT64_MAX]. *)
Lemma copier_processOptions_stores :
  forall size g g',
    Copier.processOptions size g = Returned g' ->
    exists o',
      g' = Some o'
      /\ querySize o'
         = (if querySize (fst (getInstance g)) =? -1 then size
            else querySize (fst (getInstance g))).
Proof.
  intros size g g' H. unfold Copier.processOptions in H.
  destruct (getInstance g) as [o g1]. simpl.
  destruct (finishOptions _) as [o2| | |] eqn:F; simpl in H;
    try discriminate H.
  injection H as <-. exists o2. split; [reflexivity|].
  rewrite (finishOptions_querySize _ _ F).
  destruct (querySize o =? -1); reflexivity.
Qed.

(** The options of a command line, in two parts: the second part goes on
    from what the first has assigned. *)
Lemma reader_parseLoop_app :
  forall args1 args2 o,
    Reader.parseLoop (args1 ++ args2) o
    = (r <- Reader.parseLoop args1 o ;;
       if fst r then Reader.parseLoop args2 (snd r) else Returned r).
Proof.
  induction args1 as [|p args1 IH]; intros args2 o.
  - reflexivity.
  - simpl. destruct (Reader.parseOption p o) as [[o'|]| | |];
      simpl; try reflexivity. apply IH.
Qed.

Lemma copier_parseLoop_app :
  forall args1 args2 o,
    Copier.parseLoop (args1 ++ args2) o
    = (r <- Copier.parseLoop args1 o ;;
       if fst r then Copier.parseLoop args2 (snd r) else Returned r).
Proof.
  induction args1 as [|p args1 IH]; intros args2 o.
  - reflexivity.
  - simpl. destruct (Copier.parseOption p o) as [[o'|]| | |];
      simpl; try reflexivity. apply IH.
Qed.

Lemma reader_parseArguments_app :
  forall args1 args2 g,
    Reader.parseArguments (args1 ++ args2) g
    = (r <- Reader.parseArguments args1 g ;;
       if fst r then Reader.parseArguments args2 (snd r) else Returned r).
Proof.
  intros args1 args2 g. unfold Reader.parseArguments.
  destruct (getInstance g) as [o g1]. rewrite reader_parseLoop_app.
  destruct (Reader.parseLoop args1 o) as [[b o1]| | |]; simpl;
    try reflexivity.
  destruct b; reflexivity.
Qed.

Lemma copier_parseArguments_app :
  forall args1 args2 g,
    Copier.parseArguments (args1 ++ args2) g
    = (r <- Copier.parseArguments args1 g ;;
       if fst r then Copier.parseArguments args2 (snd r) else Returned r).
Proof.
  intros args1 args2 g. unfold Copier.parseArguments.
  destruct (getInstance g) as [o g1]. rewrite copier_parseLoop_app.
  destruct (Copier.parseLoop args1 o) as [[b o1]| | |]; simpl;
    try reflexivity.
  destruct b; reflexivity.
Qed.

(** [fileRead] works on the object that [getInstance] answers and leaves
    it as it is. *)
Lemma fileRead_keeps_options :
  forall fs clk fuel g b g',
    Reader.fileRead fs clk fuel g = Returned (b, g') ->
    g' = snd (getInstance g).
Proof.
  intros fs clk fuel g b g' H. unfold Reader.fileRead in H.
  destruct (getInstance g) as [o g1]. simpl.
  destruct (Reader.fileRead_locals fs clk fuel o); simpl in H;
    try discriminate H.
  injection H as _ <-. reflexivity.
Qed.

(** [fileCopy] assigns to that object through [processOptions], once the
    source is open. *)
Lemma fileCopy_processes_options :
  forall fs clk fuel g b g' c,
    Copier.fileCopy fs clk fuel g = Returned (b, g') ->
    IOS.lookup (source (fst (getInstance g))) (IOS.files fs) = Some c ->
    Copier.processOptions (Z.of_nat (List.length c)) (snd (getInstance g))
    = Returned g'.
Proof.
  intros fs clk fuel g b g' c H Hc.
  unfold Copier.fileCopy, Copier.fileCopy_report in H.
  destruct (getInstance g) as [o g1]. simpl in Hc. simpl.
  destruct (IOS.allocates fs (chunkSize o)); [|discriminate H].
  cbn [negb] in H.
  rewrite (StreamFacts.open_in_found fs _ c Hc) in H.
  simpl IOS.ok in H. cbv iota in H.
  rewrite CopierFacts.fileLength_good in H by reflexivity.
  unfold IOS.size in H. simpl IOS.content in H.
  destruct (Copier.processOptions _ g1) as [g2| | |] eqn:P;
    try discriminate H.
  cbn [bind] in H. destruct (getInstance g2) as [o2 g3].
  destruct (IOS.ook _).
  - destruct (Copier.loop _ _ _ _); simpl in H; try discriminate H.
    injection H as _ <-. reflexivity.
  - simpl in H. injection H as _ <-. reflexivity.
Qed.

End ConfigFacts.

(* ================================================================== *)
(** * The claims *)

(** ** The interface *)

(** C4.  [read_data_init] takes exactly nine options, in this order: the
    retry count, the chunkserver round-trip time (ms), the connect timeout
    (ms), the per-wave read timeout (ms), the total-read timeout (ms), the
    cache expiry (ms), the maximum readahead window (kB), whether XOR
    stripes are prefetched (a [bool]), and the bandwidth-overuse ratio (a
    floating-point number). *)
Theorem read_data_init_nine_options :
  map ReadData.describe (ReadData.parameters ReadData.read_data_init)
  = [(Some ReadData.RetryCount, ReadData.Plain, ReadData.Tuint32);
     (Some ReadData.RoundTripTime, ReadData.Milliseconds, ReadData.Tuint32);
     (Some ReadData.ConnectTimeout, ReadData.Milliseconds, ReadData.Tuint32);
     (Some ReadData.WaveReadTimeout, ReadData.Milliseconds,
      ReadData.Tuint32);
     (Some ReadData.TotalReadTimeout, ReadData.Milliseconds,
      ReadData.Tuint32);
     (Some ReadData.CacheExpiry, ReadData.Milliseconds, ReadData.Tuint32);
     (Some ReadData.ReadaheadWindow, ReadData.Kilobytes, ReadData.Tuint32);
     (Some ReadData.PrefetchXorStripes, ReadData.Plain, ReadData.Tbool);
     (Some ReadData.BandwidthOveruse, ReadData.Plain, ReadData.Tdouble)]
  /\ List.length (ReadData.parameters ReadData.read_data_init) = 9%nat.
Proof. split; reflexivity. Qed.

(** C7, as stated, fails: the handle that [read_data_new] returns is a
    [void*]. *)
Lemma session_handle_is_untyped :
  ReadData.is_untyped_pointer (ReadData.returns ReadData.read_data_new)
  = true.
Proof. reflexivity. Qed.

(** C7, amended.  A session handle at the interface is an untyped pointer:
    [read_data_new] makes a [void*] from an inode number, and [read_data],
    [read_data_end] and [read_data_freebuff] take the session as a [void*]
    in their first parameter. *)
Theorem session_handle_is_void_pointer :
  ReadData.returns ReadData.read_data_new
  = ReadData.Tpointer ReadData.Tvoid
  /\ ReadData.types_of ReadData.read_data_new = [ReadData.Tuint32]
  /\ Forall (fun d => hd_error (ReadData.types_of d)
                      = Some (ReadData.Tpointer ReadData.Tvoid))
            [ReadData.read_data; ReadData.read_data_end;
             ReadData.read_data_freebuff].
Proof.
  repeat split; repeat constructor.
Qed.

(** ** [dehumanize] *)




(** ** [fileLength] *)

(** C10, as stated, fails on a stream that has failed: after a read that
    ran into the end of the eight bytes of [data], [fileLength] answers
    [-1], not [8]. *)
Lemma fileLength_failed_stream :
  fst (Copier.fileLength Sample.exhausted) = -1
  /\ IOS.size Sample.exhausted = 8
  /\ IOS.ok Sample.exhausted = false.
Proof. repeat split. Qed.

(** C10, amended.  On an input stream in a good state [fileLength] returns
    the length of the stream and leaves the stream as it was, the get
    position included; on a stream that is not good it returns [-1], and
    the get position is still where it was. *)
Theorem fileLength_restores_position :
  forall s : IOS.ifstream,
    (IOS.is_good (IOS.rdstate s) = true ->
     Copier.fileLength s = (IOS.size s, s))
    /\ (IOS.is_good (IOS.rdstate s) = false ->
        fst (Copier.fileLength s) = -1)
    /\ IOS.gpos (snd (Copier.fileLength s)) = IOS.gpos s.
Proof.
  intros s. repeat split.
  - apply CopierFacts.fileLength_good.
  - intros H. apply (CopierFacts.fileLength_not_good s H).
  - apply CopierFacts.fileLength_position.
Qed.

Lemma fileLength_restores_position_witness :
  Copier.fileLength (snd (IOS.read 4 (IOS.open_in Sample.disk "data")))
  = (8, snd (IOS.read 4 (IOS.open_in Sample.disk "data")))
  /\ fst (Copier.fileLength
            (snd (IOS.read 9 (IOS.open_in Sample.disk "data")))) = -1.
Proof.
  split.
  - apply (proj1 (fileLength_restores_position
                    (snd (IOS.read 4 (IOS.open_in Sample.disk "data"))))).
    reflexivity.
  - apply (proj1 (proj2 (fileLength_restores_position
                    (snd (IOS.read 9 (IOS.open_in Sample.disk "data")))))).
    reflexivity.
Defined.

(** ** [fileCopy] and [fileRead] *)

(** C3, as stated, fails for [fileRead]: asked for eight bytes in chunks of
    four with a timeout of zero seconds, it is stopped by the timeout after
    the first chunk and returns [true] with four bytes read. *)
Lemma fileRead_timeout_reports_success :
  Sample.reader_options Sample.impatient
  = Returned (Some Sample.impatient_options)
  /\ Reader.fileRead Sample.disk Sample.steady 10
       (Some Sample.impatient_options)
     = Returned (true, Some Sample.impatient_options)
  /\ Sample.transferred
       (Reader.fileRead_locals Sample.disk Sample.steady 10
          Sample.impatient_options) = Some 4
  /\ Config.querySize Sample.impatient_options = 8
  /\ Reader.main Sample.disk Sample.steady 10 Sample.impatient
     = Returned 0.
Proof. repeat split; vm_compute; reflexivity. Qed.

(** C3, amended.  [fileCopy] reports success exactly when the bytes it
    has read are as many as the source holds, so that a copy which the
    timeout or the budget stops before the source is read whole is a
    failure; it compares the bytes read and does not look at the output
    stream.  [fileRead] reports success whenever the timeout or the
    budget stops it, however many bytes it has read. *)
Theorem partial_transfer_reporting :
  (forall fs clk fuel g b g',
      Copier.fileCopy fs clk fuel g = Returned (b, g') ->
      (b = true <->
       exists rep c,
         Copier.fileCopy_report fs clk fuel g = Returned (Some rep, g')
         /\ IOS.lookup (Config.source (fst (Config.getInstance g)))
                       (IOS.files fs) = Some c
         /\ Copier.fileSize rep = Z.of_nat (List.length c)
         /\ Copier.totalRead (Copier.final rep)
            = Z.of_nat (List.length c)))
  /\ (forall fs clk fuel g b g',
         Reader.fileRead fs clk fuel g = Returned (b, g') ->
         Reader.stopped_by_limit fs clk (fst (Config.getInstance g)) ->
         Reader.fileRead fs clk fuel g = Returned (true, g')).
Proof.
  split.
  - intros fs clk fuel g b g' H. split.
    + intros ->. apply CopierFacts.fileCopy_true. exact H.
    + intros (rep & c & R & _ & Hsize & Hread).
      unfold Copier.fileCopy in H. rewrite R in H. simpl in H.
      rewrite Hsize, Hread, Z.eqb_refl in H. injection H as <-.
      reflexivity.
  - intros fs clk fuel g b g' H Hstop. rewrite H.
    replace b with true; [reflexivity|]. symmetry.
    apply (ReaderFacts.fileRead_true_iff fs clk fuel g b g' H). exact Hstop.
Qed.

Lemma partial_transfer_reporting_witness :
  (exists rep c,
      Copier.fileCopy_report Sample.disk Sample.steady 10
        (Some (Config.set_chunkSize 4
                 (Config.set_source "data" Config.defaults)))
      = Returned (Some rep,
                  Some (Config.set_timeoutSeconds Double.MAXFLOAT
                          (Config.set_chunksMaxCount 2
                             (Config.set_querySize 8
                                (Config.set_chunkSize 4
                                   (Config.set_source "data"
                                      Config.defaults))))))
      /\ IOS.lookup "data" (IOS.files Sample.disk) = Some c
      /\ Copier.fileSize rep = Z.of_nat (List.length c)
      /\ Copier.totalRead (Copier.final rep) = Z.of_nat (List.length c))
  /\ Reader.fileRead Sample.disk Sample.steady 10
       (Some Sample.impatient_options)
     = Returned (true, Some Sample.impatient_options).
Proof.
  destruct partial_transfer_reporting as [Hcopy Hread]. split.
  - apply (Hcopy Sample.disk Sample.steady 10%nat
                 (Some (Config.set_chunkSize 4
                          (Config.set_source "data" Config.defaults)))
                 true);
      [vm_compute; reflexivity | reflexivity].
  - apply (Hread Sample.disk Sample.steady 10%nat
                 (Some Sample.impatient_options) true
                 (Some Sample.impatient_options)).
    + vm_compute. reflexivity.
    + unfold Reader.stopped_by_limit.
      eexists. eexists. split; [reflexivity|]. split.
      * eapply Reader.iterates_pass;
          [vm_compute; reflexivity | apply Reader.iterates_here].
      * vm_compute. reflexivity.
Defined.

(** C8.  [fileRead] returns [true] if and only if its loop is stopped by
    the timeout or by the budget of chunks; when a stream fails first --
    the source is at its end, or the read fails -- before either limit is
    hit, [fileRead] returns [false]; and [main] exits with status 1 when
    [fileRead] has returned [false]. *)
Theorem fileRead_true_iff_limit_stops :
  forall (fs : IOS.filesystem) (clk : clock) (g : Config.global),
    let o := fst (Config.getInstance g) in
    (forall fuel b g',
        Reader.fileRead fs clk fuel g = Returned (b, g') ->
        (b = true <-> Reader.stopped_by_limit fs clk o))
    /\ (Reader.stopped_by_limit fs clk o ->
        exists fuel0, forall fuel,
            (fuel0 <= fuel)%nat ->
            Reader.fileRead fs clk fuel g
            = Returned (true, snd (Config.getInstance g)))
    /\ (Reader.stream_ended_first fs clk o ->
        exists fuel0, forall fuel,
            (fuel0 <= fuel)%nat ->
            Reader.fileRead fs clk fuel g
            = Returned (false, snd (Config.getInstance g)))
    /\ (forall fuel args r b g',
           Reader.parseArguments args Config.nullptr = Returned r ->
           Reader.processOptions (snd r) = Returned g ->
           Reader.fileRead fs clk fuel g = Returned (b, g') ->
           Reader.main fs clk fuel args = Returned (if b then 0 else 1)).
Proof.
  intros fs clk g o. repeat split.
  - apply (ReaderFacts.fileRead_true_iff fs clk fuel g b g' H).
  - apply (ReaderFacts.fileRead_true_iff fs clk fuel g b g' H).
  - apply ReaderFacts.fileRead_true_on_limit.
  - apply ReaderFacts.fileRead_false_on_stream_end.
  - intros fuel args r b g' Hparse Hprocess Hread.
    unfold Reader.main. rewrite Hparse. simpl.
    rewrite Hprocess. simpl. rewrite Hread. reflexivity.
Qed.

Lemma fileRead_true_iff_limit_stops_witness :
  (true = true <->
   Reader.stopped_by_limit Sample.disk Sample.steady
     Sample.impatient_options)
  /\ (exists fuel0, forall fuel,
         (fuel0 <= fuel)%nat ->
         Reader.fileRead Sample.disk Sample.steady fuel
           (Some Sample.impatient_options)
         = Returned (true, Some Sample.impatient_options))
  /\ (exists fuel0, forall fuel,
         (fuel0 <= fuel)%nat ->
         Reader.fileRead Sample.disk Sample.steady fuel
           (Some Sample.patient_options)
         = Returned (false, Some Sample.patient_options))
  /\ Reader.main Sample.disk Sample.steady 10 Sample.patient = Returned 1.
Proof.
  pose proof (fileRead_true_iff_limit_stops Sample.disk Sample.steady
                (Some Sample.impatient_options)) as (Hiff & Htrue & _).
  pose proof (fileRead_true_iff_limit_stops Sample.disk Sample.steady
                (Some Sample.patient_options)) as (_ & _ & Hend & Hmain).
  split; [|split; [|split]].
  - apply (Hiff 10%nat true (Some Sample.impatient_options)).
    vm_compute. reflexivity.
  - apply Htrue. unfold Reader.stopped_by_limit.
    eexists. eexists. split; [reflexivity|]. split.
    + eapply Reader.iterates_pass; [vm_compute; reflexivity|].
      apply Reader.iterates_here.
    + vm_compute. reflexivity.
  - apply Hend. unfold Reader.stream_ended_first.
    eexists. eexists. split; [reflexivity|]. split; [|split].
    + eapply Reader.iterates_pass; [vm_compute; reflexivity|].
      eapply Reader.iterates_pass; [vm_compute; reflexivity|].
      apply Reader.iterates_here.
    + vm_compute. reflexivity.
    + vm_compute. reflexivity.
  - apply (Hmain 10%nat Sample.patient
                 (true, Some (Config.set_chunksMaxCount 5
                                (Config.set_chunkSize 4
                                   (Config.set_source "data"
                                      Config.defaults))))
                 false (Some Sample.patient_options));
      vm_compute; reflexivity.
Defined.

(** ** The configuration *)

(** C6, as stated, fails: the options are an object behind a static
    pointer, which [processOptions] changes after [getInstance] has
    constructed it, and what [fileRead] returns on the same file system and
    clock follows from what that object holds when it is called. *)
Lemma options_changed_after_construction :
  Config.getInstance Config.nullptr
  = (Config.defaults, Some Config.defaults)
  /\ Reader.processOptions (Some Config.defaults)
     = Returned (Some (Config.set_timeoutSeconds Double.MAXFLOAT
                         (Config.set_chunksMaxCount 137438953471
                            (Config.set_querySize Long.LONG_MAX
                               Config.defaults))))
  /\ Config.querySize Config.defaults <> Long.LONG_MAX
  /\ Reader.fileRead Sample.disk Sample.steady 10
       (Some Sample.impatient_options)
     = Returned (true, Some Sample.impatient_options)
  /\ Reader.fileRead Sample.disk Sample.steady 10
       (Some Sample.patient_options)
     = Returned (false, Some Sample.patient_options).
Proof.
  repeat split; try (vm_compute; reflexivity).
  vm_compute. discriminate.
Qed.

(** C6, amended.  The configuration is the one [Options] object behind
    the static pointer [Options::instance], and it is mutable.
    [getInstance] constructs it with the defaults on the first call and
    answers the same object from then on.  [parseArguments] and
    [processOptions], of both programs, assign its members in place: each
    call goes on from what the calls before it have assigned.  [fileRead]
    and [fileCopy] take no configuration as a parameter but work on that
    object as [getInstance] answers it; [fileRead] leaves it as it is, and
    [fileCopy] assigns to it through [processOptions].  The interface of
    readdata.h is of the same kind: the getters of the timeouts take no
    parameter, and [read_data_new] takes an inode number and nothing
    else. *)
Theorem options_one_mutable_instance :
  (* the singleton *)
  Config.getInstance Config.nullptr
  = (Config.defaults, Some Config.defaults)
  /\ (forall g : Config.global,
         snd (Config.getInstance g) = Some (fst (Config.getInstance g))
         /\ Config.getInstance (snd (Config.getInstance g))
            = Config.getInstance g)
  (* [parseArguments] *)
  /\ (forall args1 args2 g,
         Reader.parseArguments (args1 ++ args2) g
         = (r <- Reader.parseArguments args1 g ;;
            if fst r then Reader.parseArguments args2 (snd r)
            else Returned r))
  /\ (forall args1 args2 g,
         Copier.parseArguments (args1 ++ args2) g
         = (r <- Copier.parseArguments args1 g ;;
            if fst r then Copier.parseArguments args2 (snd r)
            else Returned r))
  (* [processOptions] *)
  /\ (forall g g',
         Reader.processOptions g = Returned g' ->
         exists o',
           g' = Some o'
           /\ Config.querySize o'
              = (if Config.querySize (fst (Config.getInstance g)) =? -1
                 then Long.LONG_MAX
                 else Config.querySize (fst (Config.getInstance g))))
  /\ (forall size g g',
         Copier.processOptions size g = Returned g' ->
         exists o',
           g' = Some o'
           /\ Config.querySize o'
              = (if Config.querySize (fst (Config.getInstance g)) =? -1
                 then size
                 else Config.querySize (fst (Config.getInstance g))))
  (* [fileRead] and [fileCopy] *)
  /\ (forall fs clk fuel g,
         Reader.fileRead fs clk fuel g
         = Reader.fileRead fs clk fuel (snd (Config.getInstance g))
         /\ forall b g',
             Reader.fileRead fs clk fuel g = Returned (b, g') ->
             g' = snd (Config.getInstance g))
  /\ (forall fs clk fuel g,
         Copier.fileCopy fs clk fuel g
         = Copier.fileCopy fs clk fuel (snd (Config.getInstance g))
         /\ forall b g' c,
             Copier.fileCopy fs clk fuel g = Returned (b, g') ->
             IOS.lookup (Config.source (fst (Config.getInstance g)))
                        (IOS.files fs) = Some c ->
             Copier.processOptions (Z.of_nat (List.length c))
                                   (snd (Config.getInstance g))
             = Returned g')
  (* the interface *)
  /\ Forall (fun d => ReadData.parameters d = [])
            [ReadData.read_data_get_wave_read_timeout_ms;
             ReadData.read_data_get_connect_timeout_ms;
             ReadData.read_data_get_total_read_timeout_ms;
             ReadData.read_data_get_prefetchxorstripes]
  /\ ReadData.types_of ReadData.read_data_new = [ReadData.Tuint32].
Proof.
  split; [reflexivity|].
  split.
  { intros g. split;
      [apply ConfigFacts.getInstance_stored
      | apply ConfigFacts.getInstance_again]. }
  split; [exact ConfigFacts.reader_parseArguments_app|].
  split; [exact ConfigFacts.copier_parseArguments_app|].
  split; [exact ConfigFacts.processOptions_stores|].
  split; [exact ConfigFacts.copier_processOptions_stores|].
  split.
  { intros fs clk fuel g. split.
    - destruct g as [o|]; reflexivity.
    - apply ConfigFacts.fileRead_keeps_options. }
  split.
  { intros fs clk fuel g. split.
    - destruct g as [o|]; reflexivity.
    - intros b g' c. apply ConfigFacts.fileCopy_processes_options. }
  split; [repeat constructor | reflexivity].
Qed.

Lemma options_one_mutable_instance_witness :
  (exists o',
      Some Sample.patient_options = Some o'
      /\ Config.querySize o' = Long.LONG_MAX)
  /\ Some Sample.patient_options
     = snd (Config.getInstance (Some Sample.patient_options))
  /\ Copier.processOptions 8
       (Some (Config.set_chunkSize 4
                (Config.set_source "data" Config.defaults)))
     = Returned
         (Some (Config.set_timeoutSeconds Double.MAXFLOAT
                  (Config.set_chunksMaxCount 2
                     (Config.set_querySize 8
                        (Config.set_chunkSize 4
                           (Config.set_source "data"
                              Config.defaults)))))).
Proof.
  destruct options_one_mutable_instance
    as (_ & _ & _ & _ & Hprocess & _ & Hread & Hcopy & _).
  split; [|split].
  - apply (Hprocess (Some (Config.set_chunksMaxCount 5
                             (Config.set_chunkSize 4
                                (Config.set_source "data"
                                   Config.defaults))))).
    vm_compute. reflexivity.
  - apply (proj2 (Hread Sample.disk Sample.steady 10%nat
                        (Some Sample.patient_options)) false).
    vm_compute. reflexivity.
  - apply (proj2 (Hcopy Sample.disk Sample.steady 10%nat
                        (Some (Config.set_chunkSize 4
                                 (Config.set_source "data"
                                    Config.defaults))))
                 true
                 (Some (Config.set_timeoutSeconds Double.MAXFLOAT
                          (Config.set_chunksMaxCount 2
                             (Config.set_querySize 8
                                (Config.set_chunkSize 4
                                   (Config.set_source "data"
                                      Config.defaults))))))
                 Sample.eight);
      [vm_compute; reflexivity | reflexivity].
Defined.

(* ================================================================== *)
(** * Further properties *)

(** ** Numbers and units *)

Module UnitsFacts.
Import Chars Regex Numbers Units RegexFacts NumbersFacts.









(** *** Signed integers *)








End UnitsFacts.

(** ** Options on the command line *)

Module ParseFacts.
Import Config Invariants.

Ltac option_cases H :=
  repeat match type of H with
         | context [if ?b then _ else _] => destruct b eqn:?
         | context [bind ?r _] => destruct r; simpl in H
         end.

Lemma reader_parseOption_rejected :
  forall p o,
    Reader.parseOption p o = Returned None <-> rejected p = true.
Proof.
  intros [opt optarg] o. unfold rejected. simpl fst. split.
  - intros H. unfold Reader.parseOption in H.
    option_cases H; try discriminate H; reflexivity.
  - intros H. apply orb_true_iff in H.
    destruct H as [H | H]; apply Ascii.eqb_eq in H; subst opt; reflexivity.
Qed.

Lemma copier_parseOption_rejected :
  forall p o,
    Copier.parseOption p o = Returned None <-> rejected p = true.
Proof.
  intros [opt optarg] o. unfold rejected. simpl fst. split.
  - intros H. unfold Copier.parseOption in H.
    option_cases H; try discriminate H; reflexivity.
  - intros H. apply orb_true_iff in H.
    destruct H as [H | H]; apply Ascii.eqb_eq in H; subst opt; reflexivity.
Qed.

(** The options up to the first rejected one are those that count. *)
Lemma reader_parseLoop_cut :
  forall args1 p args2 o,
    rejected p = true ->
    match Reader.parseLoop args1 o with
    | Returned (_, o') =>
        Reader.parseLoop (args1 ++ p :: args2) o = Returned (false, o')
    | Aborted => Reader.parseLoop (args1 ++ p :: args2) o = Aborted
    | NotModelled => Reader.parseLoop (args1 ++ p :: args2) o = NotModelled
    | OutOfFuel => Reader.parseLoop (args1 ++ p :: args2) o = OutOfFuel
    end.
Proof.
  intros args1 p args2 o Hp. revert o.
  induction args1 as [|q args1 IH]; intros o; simpl.
  - rewrite (proj2 (reader_parseOption_rejected p o) Hp). reflexivity.
  - destruct (Reader.parseOption q o) as [[o'|]| | |]; simpl;
      try reflexivity.
    apply IH.
Qed.

Lemma copier_parseLoop_cut :
  forall args1 p args2 o,
    rejected p = true ->
    match Copier.parseLoop args1 o with
    | Returned (_, o') =>
        Copier.parseLoop (args1 ++ p :: args2) o = Returned (false, o')
    | Aborted => Copier.parseLoop (args1 ++ p :: args2) o = Aborted
    | NotModelled => Copier.parseLoop (args1 ++ p :: args2) o = NotModelled
    | OutOfFuel => Copier.parseLoop (args1 ++ p :: args2) o = OutOfFuel
    end.
Proof.
  intros args1 p args2 o Hp. revert o.
  induction args1 as [|q args1 IH]; intros o; simpl.
  - rewrite (proj2 (copier_parseOption_rejected p o) Hp). reflexivity.
  - destruct (Copier.parseOption q o) as [[o'|]| | |]; simpl;
      try reflexivity.
    apply IH.
Qed.

Lemma reader_parseLoop_flag :
  forall args o b o',
    Reader.parseLoop args o = Returned (b, o') ->
    b = negb (existsb rejected args).
Proof.
  induction args as [|q args IH]; intros o b o' H; simpl in H.
  - injection H as <- _. reflexivity.
  - simpl. destruct (Reader.parseOption q o) as [[o1|]| | |] eqn:E;
      simpl in H; try discriminate H.
    + rewrite (IH o1 b o' H).
      destruct (rejected q) eqn:R; [|reflexivity].
      apply (reader_parseOption_rejected q o) in R. congruence.
    + injection H as <- _.
      apply reader_parseOption_rejected in E. rewrite E. reflexivity.
Qed.

End ParseFacts.

(** ** [processOptions] *)

Module OptionsFacts.
Import Config.

Lemma maxfloat_is_not_minus_one :
  Double.eqb Double.minus_one Double.MAXFLOAT = false.
Proof. reflexivity. Qed.

(** What [finishOptions] has settled stays settled. *)
Lemma finishOptions_fixed :
  forall o o2, finishOptions o = Returned o2 -> finishOptions o2 = Returned o2.
Proof.
  intros [cs cm src dst sp qs ts wt] o2 H. unfold finishOptions in *.
  cbn [chunksMaxCount querySize chunkSize timeoutSeconds] in H.
  destruct (cm =? -1) eqn:Ecm.
  - destruct (long_div qs cs) as [n| | |] eqn:Ediv; cbn [bind] in H;
      try discriminate H.
    unfold set_chunksMaxCount, set_timeoutSeconds in H.
    cbn [chunksMaxCount querySize chunkSize timeoutSeconds source
         destination showProgress waitingTimeMilliseconds] in H.
    destruct (Double.eqb Double.minus_one ts) eqn:Et; injection H as <-;
      cbn [chunksMaxCount querySize chunkSize timeoutSeconds];
      rewrite Ediv; destruct (n =? -1);
      unfold set_chunksMaxCount, set_timeoutSeconds;
      cbn [bind chunksMaxCount querySize chunkSize timeoutSeconds source
           destination showProgress waitingTimeMilliseconds];
      rewrite ?maxfloat_is_not_minus_one, ?Et; reflexivity.
  - cbn [bind] in H. unfold set_timeoutSeconds in H.
    cbn [chunksMaxCount querySize chunkSize timeoutSeconds source
         destination showProgress waitingTimeMilliseconds] in H.
    destruct (Double.eqb Double.minus_one ts) eqn:Et; injection H as <-;
      cbn [chunksMaxCount querySize chunkSize timeoutSeconds];
      rewrite Ecm; cbn [bind];
      unfold set_timeoutSeconds;
      cbn [chunksMaxCount querySize chunkSize timeoutSeconds source
           destination showProgress waitingTimeMilliseconds];
      rewrite ?maxfloat_is_not_minus_one, ?Et; reflexivity.
Qed.

Lemma finishOptions_keeps :
  forall o o2,
    finishOptions o = Returned o2 ->
    querySize o2 = querySize o /\ chunkSize o2 = chunkSize o
    /\ source o2 = source o /\ destination o2 = destination o
    /\ (chunksMaxCount o <> -1 -> chunksMaxCount o2 = chunksMaxCount o)
    /\ (chunksMaxCount o = -1 ->
        long_div (querySize o) (chunkSize o) = Returned (chunksMaxCount o2)).
Proof.
  intros o o2 H. unfold finishOptions in H.
  destruct (chunksMaxCount o =? -1) eqn:Ecm.
  - destruct (long_div (querySize o) (chunkSize o)) as [n| | |] eqn:Ediv;
      cbn [bind] in H; try discriminate H.
    apply Z.eqb_eq in Ecm.
    destruct (Double.eqb _ _); injection H as <-; repeat split;
      try reflexivity; intros; congruence.
  - cbn [bind] in H. apply Z.eqb_neq in Ecm.
    destruct (Double.eqb _ _); injection H as <-; repeat split;
      try reflexivity; intros; congruence.
Qed.

(** [finishOptions] is killed exactly by the division. *)
Lemma finishOptions_outcome :
  forall o,
    (chunksMaxCount o = -1
     /\ (chunkSize o = 0
         \/ (querySize o = Long.LONG_MIN /\ chunkSize o = -1)) ->
     finishOptions o = Aborted)
    /\ (~ (chunksMaxCount o = -1
           /\ (chunkSize o = 0
               \/ (querySize o = Long.LONG_MIN /\ chunkSize o = -1))) ->
        exists o2, finishOptions o = Returned o2).
Proof.
  intros o. unfold finishOptions, long_div. split.
  - intros [Hcm Hdiv]. rewrite Hcm. simpl (_ =? _).
    replace ((chunkSize o =? 0)
             || (querySize o =? Long.LONG_MIN) && (chunkSize o =? -1))
      with true; [reflexivity|].
    symmetry. apply orb_true_iff. destruct Hdiv as [H | [H1 H2]].
    + left. apply Z.eqb_eq. exact H.
    + right. apply andb_true_iff. split; apply Z.eqb_eq; assumption.
  - intros Hn. destruct (chunksMaxCount o =? -1) eqn:Ecm.
    + apply Z.eqb_eq in Ecm.
      destruct ((chunkSize o =? 0)
                || (querySize o =? Long.LONG_MIN) && (chunkSize o =? -1))
        eqn:E.
      * exfalso. apply Hn. split; [exact Ecm|].
        apply orb_true_iff in E. destruct E as [E | E].
        -- left. apply Z.eqb_eq. exact E.
        -- right. apply andb_true_iff in E. destruct E as [E1 E2].
           split; apply Z.eqb_eq; assumption.
      * cbn [bind]. eexists. reflexivity.
    + cbn [bind]. eexists. reflexivity.
Qed.

End OptionsFacts.

(** ** What the loop of [fileRead] keeps *)

Module ReaderMore.
Import Config Reader Invariants ReaderFacts.

Lemma read_good :
  forall n s,
    IOS.is_good (IOS.rdstate s) = true ->
    IOS.read n s
    = (IOS.available n s,
       {| IOS.content := IOS.content s;
          IOS.gpos :=
            (IOS.gpos s + N.of_nat (List.length (IOS.available n s)))%N;
          IOS.rdstate :=
            if Z.of_nat (List.length (IOS.available n s)) =? n
            then IOS.rdstate s else IOS.set_eof_fail (IOS.rdstate s);
          IOS.gcount := Z.of_nat (List.length (IOS.available n s)) |}).
Proof.
  intros n s H. unfold IOS.read, IOS.sentry. rewrite H. reflexivity.
Qed.

Lemma available_length :
  forall n s,
    List.length (IOS.available n s)
    = Nat.min (Z.to_nat n)
              (List.length (IOS.content s) - N.to_nat (IOS.gpos s)).
Proof.
  intros n s. unfold IOS.available.
  rewrite length_firstn, length_skipn. reflexivity.
Qed.

Lemma wrap64_id :
  forall z, - 2 ^ 63 <= z < 2 ^ 63 -> Long.wrap64 z = z.
Proof.
  intros z Hz. unfold Long.wrap64. rewrite Z.mod_small by lia. lia.
Qed.

(** One pass: from the head of a pass to the head of the next, or out of
    the loop. *)
Lemma body_reading :
  forall o clk c st f fin,
    0 < chunkSize o -> Z.of_nat (List.length c) < 2 ^ 63 ->
    reading c o st -> body o clk st = (f, fin) ->
    (f = Again ->
     reading c o fin /\ totalRead fin = totalRead st + chunkSize o)
    /\ (f <> Again -> read_out c o fin).
Proof.
  intros o clk c st f fin Hn Hlen
         (Hc & Hg & Hofs & Hres & Hpos & Hcnt & Hrange & Hle) E.
  unfold passes_allowed in *. unfold body in E.
  destruct (timed_out o st) eqn:Ht.
  { injection E as <- <-. split; [discriminate|]. intros _.
    unfold read_out, passes_allowed, timed_out in *. simpl.
    split; [assumption|]. split; [nia|]. split; [nia|].
    split; [discriminate|]. intros _. left. exact Ht. }
  destruct (budget_spent o st) eqn:Hb.
  { injection E as <- <-. split; [discriminate|]. intros _.
    unfold budget_spent in Hb. apply Z.gtb_lt in Hb.
    unfold read_out, passes_allowed. simpl.
    split; [assumption|]. split; [nia|]. split; [nia|].
    split; [discriminate|]. intros _. right. nia. }
  unfold budget_spent in Hb.
  assert (chunksCount st <= chunksMaxCount o) as Hb'
      by (rewrite Z.gtb_ltb, Z.ltb_ge in Hb; exact Hb).
  rewrite (read_good _ _ Hg) in E.
  pose proof (available_length (chunkSize o) (ifs st)) as Hk.
  rewrite Hc in Hk.
  set (k := List.length (IOS.available (chunkSize o) (ifs st))) in *.
  clearbody k.
  rewrite (StreamFacts.good_bits _ Hg) in E.
  injection E as Ef <-.
  assert (Z.of_nat k <= chunkSize o) as Hkn by lia.
  assert (totalRead st + Z.of_nat k <= Z.of_nat (List.length c)) as Hkl
      by lia.
  assert (chunksCount st <= totalRead st) as Hct by nia.
  assert (Long.add (totalRead st) (Z.of_nat k) = totalRead st + Z.of_nat k)
    as Hadd by (unfold Long.add; apply wrap64_id; lia).
  destruct (Z.eqb_spec (Z.of_nat k) (chunkSize o)) as [Hfull | Hshort].
  - (* a whole chunk *)
    assert (chunksCount st + 1 <= Z.of_nat (List.length c)) as Hroom by nia.
    assert (Long.add (chunksCount st) 1 = chunksCount st + 1) as Hinc
        by (unfold Long.add; apply wrap64_id; lia).
    assert (f = Again) as ->.
    { rewrite <- Ef. unfold IOS.ok. simpl. rewrite Hofs. reflexivity. }
    split; [|congruence]. intros _.
    split; [|simpl; rewrite Hadd; lia].
    unfold reading, passes_allowed. simpl. rewrite Hadd, Hinc.
    split; [assumption|]. split; [reflexivity|]. split; [assumption|].
    split; [assumption|].
    split; [rewrite N2Z.inj_add, nat_N_Z; lia|]. split; [nia|].
    split; [nia|]. lia.
  - (* the end of the source *)
    assert (f = Leave) as -> by (rewrite <- Ef; reflexivity).
    split; [discriminate|]. intros _.
    unfold read_out, passes_allowed. simpl. rewrite Hadd.
    split; [rewrite N2Z.inj_add, nat_N_Z; lia|]. split; [nia|].
    split; [nia|]. split; [intros _; lia|]. intros H. congruence.
Qed.

Lemma loop_reading :
  forall o clk c fuel st fin,
    0 < chunkSize o -> Z.of_nat (List.length c) < 2 ^ 63 ->
    reading c o st -> loop fuel o clk st = Returned fin ->
    read_out c o fin.
Proof.
  intros o clk c fuel. induction fuel as [|fuel IH];
    intros st fin Hn Hlen Hinv H; [discriminate H|].
  simpl in H. destruct (body o clk st) as [f st'] eqn:E.
  destruct (body_reading o clk c st f st' Hn Hlen Hinv E) as [Hagain Hout].
  destruct f.
  - injection H as <-. apply Hout. discriminate.
  - apply (IH st' fin Hn Hlen (proj1 (Hagain eq_refl)) H).
  - injection H as <-. apply Hout. discriminate.
Qed.

(** The end of the source bounds the number of passes. *)
Lemma loop_returns_at_end :
  forall o clk c fuel st,
    0 < chunkSize o -> Z.of_nat (List.length c) < 2 ^ 63 ->
    reading c o st ->
    Z.of_nat (List.length c) - totalRead st < Z.of_nat fuel * chunkSize o ->
    exists fin, loop fuel o clk st = Returned fin.
Proof.
  intros o clk c fuel. induction fuel as [|fuel IH];
    intros st Hn Hlen Hinv Hfuel.
  - destruct Hinv as (_ & _ & _ & _ & _ & _ & _ & Hle). simpl in Hfuel. lia.
  - simpl. destruct (body o clk st) as [f st'] eqn:E.
    destruct (body_reading o clk c st f st' Hn Hlen Hinv E) as [Hagain _].
    destruct f; try (eexists; reflexivity).
    destruct (Hagain eq_refl) as [Hinv' Hstep].
    apply (IH st' Hn Hlen Hinv'). rewrite Hstep. lia.
Qed.

Lemma source_bytes_length :
  forall o c,
    (List.length (source_bytes o c) <= List.length c)%nat.
Proof.
  intros o c. unfold source_bytes.
  destruct (IOS.same_file _ _); simpl; lia.
Qed.

Lemma source_bytes_other :
  forall o c, destination o <> source o -> source_bytes o c = c.
Proof.
  intros o c H. unfold source_bytes, IOS.same_file.
  destruct (String.eqb_spec (destination o) (source o));
    [contradiction | reflexivity].
Qed.

(** The locals with which the loop of [fileRead] is entered on a source
    that held [c] when it was opened. *)
Lemma reader_entry :
  forall fs o c,
    IOS.ook (IOS.open_out fs (destination o)) = true ->
    reading (source_bytes o c) o
      (entry (IOS.shared (destination o)
                         (IOS.open_out fs (destination o)) (source o)
                         {| IOS.content := c; IOS.gpos := 0%N;
                            IOS.rdstate := IOS.goodbit;
                            IOS.gcount := 0 |})
             (IOS.open_out fs (destination o))).
Proof.
  intros fs o c Hout. unfold reading, passes_allowed.
  cbn [entry ifs ofs result totalRead chunksCount].
  assert (forall s,
             IOS.gpos (IOS.shared (destination o)
                                  (IOS.open_out fs (destination o))
                                  (source o) s) = IOS.gpos s
             /\ IOS.rdstate (IOS.shared (destination o)
                                        (IOS.open_out fs (destination o))
                                        (source o) s) = IOS.rdstate s)
    as Hkeep
      by (intros s0; unfold IOS.shared;
          destruct (IOS.same_file _ _); split; reflexivity).
  rewrite (proj1 (Hkeep _)), (proj2 (Hkeep _)). simpl.
  split.
  { unfold IOS.shared, source_bytes.
    destruct (IOS.same_file _ _); reflexivity. }
  split; [reflexivity|]. split; [assumption|].
  split; [reflexivity|]. split; [reflexivity|]. split; [reflexivity|].
  split; lia.
Qed.

(** The locals at the return of [fileRead] on a source that held [c]. *)
Lemma fileRead_locals_out :
  forall fs clk fuel o c fin,
    IOS.lookup (source o) (IOS.files fs) = Some c ->
    0 < chunkSize o -> Z.of_nat (List.length c) < 2 ^ 63 ->
    fileRead_locals fs clk fuel o = Returned (Some fin) ->
    read_out (source_bytes o c) o fin.
Proof.
  intros fs clk fuel o c fin Hc Hn Hlen H.
  unfold fileRead_locals in H.
  destruct (IOS.allocates fs (chunkSize o)); [|discriminate H].
  cbn [negb] in H.
  rewrite (StreamFacts.open_in_found fs (source o) c Hc) in H.
  simpl IOS.ok in H. cbv iota in H.
  destruct (IOS.ook (IOS.open_out fs (destination o))) eqn:Hout;
    [|discriminate H].
  destruct (loop fuel o clk _) as [st| | |] eqn:L; simpl in H;
    try discriminate H.
  injection H as <-.
  pose proof (source_bytes_length o c) as Hshort.
  apply (loop_reading o clk (source_bytes o c) fuel _ st Hn) in L;
    [exact L | lia | apply reader_entry; exact Hout].
Qed.

End ReaderMore.

(** ** What the loop of [fileCopy] keeps *)

Module CopierMore.
Import Config Copier Invariants StreamFacts CopierFacts.

Lemma shared_keeps :
  forall out f path s,
    IOS.rdstate (IOS.shared out f path s) = IOS.rdstate s
    /\ IOS.gpos (IOS.shared out f path s) = IOS.gpos s
    /\ IOS.ok (IOS.shared out f path s) = IOS.ok s.
Proof.
  intros out f path s. unfold IOS.shared, IOS.ok.
  destruct (IOS.same_file out path); repeat split.
Qed.

(** A pass that no limit stops: how many bytes it reads, and how it
    ends. *)
Lemma copier_pass :
  forall o clk c st,
    Z.of_nat (List.length c) < 2 ^ 63 ->
    copied c st -> IOS.ok (ifs st) = true ->
    timed_out o st = false -> budget_spent o st = false ->
    exists k : nat,
      k = Nat.min (Z.to_nat (chunkSize o))
                  (List.length c - Z.to_nat (offset st))
      /\ offset (snd (body o clk st)) = offset st + Z.of_nat k
      /\ chunksCount (snd (body o clk st)) = Long.add (chunksCount st) 1
      /\ (fst (body o clk st) = Again -> Z.of_nat k = chunkSize o)
      /\ (fst (body o clk st) <> Again -> Z.of_nat k = chunkSize o ->
          IOS.ook (ofs (snd (body o clk st))) = false).
Proof.
  intros o clk c st Hlen (Hc & Ht & Ho & Hw & Hg) Hok Hto Hbs.
  unfold body. rewrite Hto, Hbs.
  set (a := Z.to_nat (offset st)) in *.
  assert (N.to_nat (Z.to_N (offset st)) = a) as Ha
      by (unfold a; rewrite Z_N_nat; reflexivity).
  assert (a <= List.length c)%nat as Hac by (unfold a; lia).
  assert (IOS.is_good (IOS.clear_eof (IOS.rdstate (ifs st))) = true) as Hgood.
  { unfold IOS.ok, IOS.is_fail in Hok. apply negb_true_iff in Hok.
    apply orb_false_iff in Hok. destruct Hok as [Hf Hb].
    unfold IOS.is_good, IOS.clear_eof. simpl. rewrite Hf, Hb. reflexivity. }
  assert (IOS.seekg (offset st) IOS.beg (ifs st)
          = {| IOS.content := c; IOS.gpos := Z.to_N (offset st);
               IOS.rdstate := IOS.goodbit;
               IOS.gcount := IOS.gcount (ifs st) |}) as Hseek.
  { unfold IOS.seekg, IOS.sentry, IOS.with_state. simpl.
    rewrite Hgood. rewrite (good_bits _ Hgood). simpl.
    replace (offset st <? 0) with false by (symmetry; apply Z.ltb_ge; lia).
    rewrite Hc. reflexivity. }
  rewrite Hseek. unfold IOS.read, IOS.sentry, IOS.available.
  cbn [IOS.rdstate IOS.content IOS.gpos IOS.gcount].
  change (IOS.is_good IOS.goodbit) with true. cbv iota.
  cbn [IOS.rdstate IOS.content IOS.gpos IOS.gcount].
  rewrite Ha.
  set (data := firstn (Z.to_nat (chunkSize o)) (skipn a c)) in *.
  assert (List.length data
          = Nat.min (Z.to_nat (chunkSize o)) (List.length c - a)) as Hk.
  { unfold data. rewrite length_firstn, length_skipn. reflexivity. }
  set (w := IOS.write data (IOS.seekp (offset st) (ofs st))).
  cbn [fst snd offset chunksCount ofs].
  rewrite (proj2 (proj2 (shared_keeps _ _ _ _))).
  unfold IOS.ok at 1 2. cbn [IOS.rdstate].
  assert (Long.add (offset st) (Z.of_nat (List.length data))
          = offset st + Z.of_nat (List.length data)) as Hadd.
  { unfold Long.add, Long.wrap64. rewrite Z.mod_small by lia. lia. }
  rewrite Hadd. exists (List.length data).
  split; [exact Hk|]. split; [reflexivity|]. split; [reflexivity|].
  destruct (Z.eqb_spec (Z.of_nat (List.length data)) (chunkSize o))
    as [Hfull | Hshort].
  - split; [intros _; exact Hfull|]. intros Hf _.
    destruct (IOS.ook w); [|reflexivity]. exfalso. apply Hf. reflexivity.
  - split; [|intros _ H; contradiction]. intros H. simpl in H.
    discriminate H.
Qed.

Lemma body_copying :
  forall o clk c st f fin,
    0 < chunkSize o -> Z.of_nat (List.length c) < 2 ^ 63 ->
    (IOS.same_file (destination o) (source o) = true -> c = []) ->
    copying c o st -> body o clk st = (f, fin) ->
    (f = Again ->
     copying c o fin /\ offset fin = offset st + chunkSize o)
    /\ (f <> Again -> copy_out c o fin).
Proof.
  intros o clk c st f fin Hn Hlen Hsame (Hcop & Hok & Hcnt & Hrange) E.
  destruct (body_copied o clk c st f fin Hlen Hsame Hcop Hok E)
    as [Hout Hnext].
  pose proof Hcop as (_ & Ht & Ho & _ & _).
  pose proof Hout as (Ht' & Ho' & _).
  unfold passes_allowed in *.
  destruct (timed_out o st) eqn:Hto.
  { unfold body in E. rewrite Hto in E. injection E as <- <-.
    split; [discriminate|]. intros _. unfold copy_out, passes_allowed.
    split; [exact Hout|]. split; [nia|]. right. left. exact Hto. }
  destruct (budget_spent o st) eqn:Hbs.
  { unfold body in E. rewrite Hto, Hbs in E. injection E as <- <-.
    unfold budget_spent in Hbs. apply Z.gtb_lt in Hbs.
    split; [discriminate|]. intros _. unfold copy_out, passes_allowed.
    split; [exact Hout|]. simpl. split; [nia|]. right. right. left. nia. }
  destruct (copier_pass o clk c st Hlen Hcop Hok Hto Hbs)
    as (k & Hk & Hoff & Hcc & Hfull & Hfailed).
  rewrite E in Hoff, Hcc, Hfull, Hfailed.
  cbn [fst snd] in Hoff, Hcc, Hfull, Hfailed.
  unfold budget_spent in Hbs.
  assert (chunksCount st <= chunksMaxCount o) as Hb'
      by (rewrite Z.gtb_ltb, Z.ltb_ge in Hbs; exact Hbs).
  split.
  - intros Hf. specialize (Hfull Hf).
    destruct (Hnext Hf) as [Hcop' Hok'].
    assert (chunksCount st + 1 <= Z.of_nat (List.length c)) as Hroom by nia.
    assert (chunksCount fin = chunksCount st + 1) as Hinc.
    { rewrite Hcc. unfold Long.add, Long.wrap64.
      rewrite Z.mod_small by lia. lia. }
    split; [|lia]. unfold copying, passes_allowed.
    split; [exact Hcop'|]. split; [exact Hok'|].
    split; [nia|]. lia.
  - intros Hf. unfold copy_out, passes_allowed.
    split; [exact Hout|]. split; [nia|].
    destruct (Z.eq_dec (Z.of_nat k) (chunkSize o)) as [Hall | Hshort].
    + right. right. right. apply Hfailed; assumption.
    + left. lia.
Qed.


Lemma source_bytes_same :
  forall o c,
    IOS.same_file (destination o) (source o) = true ->
    source_bytes o c = [].
Proof. intros o c H. unfold source_bytes. rewrite H. reflexivity. Qed.

(** The locals with which the loop of [fileCopy] is entered on a source
    that held [c] when it was opened. *)
Lemma copy_entry :
  forall fs c o,
    IOS.ook (IOS.open_out fs (destination o)) = true ->
    copying (source_bytes o c) o
      (entry (IOS.shared (destination o)
                         (IOS.open_out fs (destination o)) (source o)
                         {| IOS.content := c; IOS.gpos := 0%N;
                            IOS.rdstate := IOS.goodbit;
                            IOS.gcount := 0 |})
             (IOS.open_out fs (destination o))).
Proof.
  intros fs c o Hout. rewrite (open_out_good fs _ Hout).
  unfold copying, copied, passes_allowed.
  cbn [entry ifs ofs totalRead offset chunksCount].
  rewrite (proj2 (proj2 (shared_keeps _ _ _ _))).
  split; [|split; [reflexivity | split; lia]].
  split.
  { unfold IOS.shared, source_bytes.
    destruct (IOS.same_file _ _); reflexivity. }
  split; [reflexivity|]. split; [lia|]. split; reflexivity.
Qed.


Lemma copier_processOptions_keeps :
  forall size o o2,
    processOptions size (Some o) = Returned (Some o2) ->
    chunkSize o2 = chunkSize o
    /\ querySize o2 = (if querySize o =? -1 then size else querySize o)
    /\ source o2 = source o /\ destination o2 = destination o
    /\ (chunksMaxCount o = -1 ->
        long_div (querySize o2) (chunkSize o)
        = Returned (chunksMaxCount o2)).
Proof.
  intros size o o2 H. unfold processOptions in H. simpl in H.
  destruct (finishOptions _) as [o3| | |] eqn:F; simpl in H;
    try discriminate H.
  injection H as <-.
  destruct (OptionsFacts.finishOptions_keeps _ _ F)
    as (Hq & Hcs & Hsrc & Hdst & _ & Hdiv).
  destruct (querySize o =? -1); simpl in *;
    (split; [exact Hcs|]; split; [exact Hq|]; split; [exact Hsrc|];
     split; [exact Hdst|]);
    intros Hm; rewrite Hq; apply Hdiv; exact Hm.
Qed.

(** [fileCopy] from its entry to its [return], when both streams open. *)
Lemma fileCopy_report_shape :
  forall fs clk fuel g rep g',
    fileCopy_report fs clk fuel g = Returned (Some rep, g') ->
    exists c o2 st0,
      IOS.lookup (source (fst (getInstance g))) (IOS.files fs) = Some c
      /\ fileSize rep = Z.of_nat (List.length c)
      /\ processOptions (Z.of_nat (List.length c)) (snd (getInstance g))
         = Returned (Some o2)
      /\ g' = Some o2
      /\ loop fuel o2 clk st0 = Returned (final rep)
      /\ copying (source_bytes o2 c) o2 st0.
Proof.
  intros fs clk fuel g rep g' R. unfold fileCopy_report in R.
  destruct (getInstance g) as [o g0] eqn:Eg. simpl.
  destruct (IOS.allocates fs (chunkSize o)); [|discriminate R].
  cbn [negb] in R.
  destruct (IOS.ok (IOS.open_in fs (source o))) eqn:Hok;
    [|injection R as R _; discriminate R].
  destruct (open_in_ok fs (source o) Hok) as (c & Hc).
  rewrite (open_in_found fs (source o) c Hc) in R.
  rewrite fileLength_good in R by reflexivity.
  unfold IOS.size in R. simpl IOS.content in R.
  destruct (processOptions _ g0) as [g2| | |] eqn:P; simpl in R;
    try discriminate R.
  assert (exists o2, g2 = Some o2) as (o2 & ->).
  { unfold processOptions in P. destruct (getInstance g0).
    destruct (finishOptions _); simpl in P; try discriminate P.
    injection P as <-. eexists. reflexivity. }
  simpl in R.
  destruct (IOS.ook (IOS.open_out fs (destination o2))) eqn:Hout;
    [|injection R as R _; discriminate R].
  destruct (loop fuel o2 clk _) as [st| | |] eqn:L; simpl in R;
    try discriminate R.
  injection R as <- <-. exists c, o2. eexists.
  split; [exact Hc|]. split; [reflexivity|]. split; [exact P|].
  split; [reflexivity|]. split; [exact L|].
  apply copy_entry. exact Hout.
Qed.

End CopierMore.

(* ================================================================== *)
(** * More of the code *)

(** ** [readNumber] and [dehumanize] *)




(** ** [parseArguments] and [processOptions] *)

(** X3.  [main] does not look at what [parseArguments] returns: when
    [getopt] reports an unknown option or a missing argument, the options
    before it count, those after it are dropped, and the program goes on
    as if the command line had ended there. *)
Theorem main_ignores_rejected_option :
  forall fs clk fuel args1 p args2,
    Invariants.rejected p = true ->
    Reader.main fs clk fuel (args1 ++ p :: args2)
    = Reader.main fs clk fuel args1
    /\ Copier.main fs clk fuel (args1 ++ p :: args2)
       = Copier.main fs clk fuel args1.
Proof.
  intros fs clk fuel args1 p args2 Hp. split.
  - unfold Reader.main, Reader.parseArguments. simpl Config.getInstance.
    cbv iota.
    pose proof (ParseFacts.reader_parseLoop_cut args1 p args2
                  Config.defaults Hp) as H.
    destruct (Reader.parseLoop args1 Config.defaults) as [[b o']| | |];
      rewrite H; reflexivity.
  - unfold Copier.main, Copier.parseArguments. simpl Config.getInstance.
    cbv iota.
    pose proof (ParseFacts.copier_parseLoop_cut args1 p args2
                  Config.defaults Hp) as H.
    destruct (Copier.parseLoop args1 Config.defaults) as [[b o']| | |];
      rewrite H; reflexivity.
Qed.

Lemma main_ignores_rejected_option_witness :
  Reader.main Sample.disk Sample.steady 10
    (Sample.patient ++ ("?"%char, ""%string) :: Sample.impatient)
  = Reader.main Sample.disk Sample.steady 10 Sample.patient
  /\ Copier.main Sample.disk Sample.steady 10
       (Sample.patient ++ ("?"%char, ""%string) :: Sample.impatient)
     = Copier.main Sample.disk Sample.steady 10 Sample.patient.
Proof.
  apply (main_ignores_rejected_option Sample.disk Sample.steady 10%nat
           Sample.patient ("?"%char, ""%string) Sample.impatient).
  reflexivity.
Defined.

(** X4.  [parseArguments] of the reader returns [false] exactly when one
    of the options that [getopt] hands it is the unknown option or the
    missing argument. *)
Theorem parseArguments_false_iff_rejected :
  forall args g b g',
    Reader.parseArguments args g = Returned (b, g') ->
    (b = false <-> exists p, In p args /\ Invariants.rejected p = true).
Proof.
  intros args g b g' H. unfold Reader.parseArguments in H.
  destruct (Config.getInstance g) as [o g0].
  destruct (Reader.parseLoop args o) as [[b0 o']| | |] eqn:E; simpl in H;
    try discriminate H.
  injection H as <- _.
  rewrite (ParseFacts.reader_parseLoop_flag args o b0 o' E).
  rewrite negb_false_iff. apply existsb_exists.
Qed.

Lemma parseArguments_false_iff_rejected_witness :
  false = false <->
  exists p,
    In p (Sample.patient ++ [(":"%char, "c"%string)])
    /\ Invariants.rejected p = true.
Proof.
  apply (parseArguments_false_iff_rejected
           (Sample.patient ++ [(":"%char, "c"%string)]) Config.nullptr false
           (Some (Config.set_chunksMaxCount 5
                    (Config.set_chunkSize 4
                       (Config.set_source "data" Config.defaults))))).
  vm_compute. reflexivity.
Defined.

(** X5.  [processOptions] settles the options once: run on options that it
    has processed, it leaves them as they are.  This holds of the reader's
    version and, for the same file length, of the copier's. *)
Theorem processOptions_idempotent :
  (forall g g',
      Reader.processOptions g = Returned g' ->
      Reader.processOptions g' = Returned g')
  /\ (forall fileSize g g',
         Copier.processOptions fileSize g = Returned g' ->
         Copier.processOptions fileSize g' = Returned g').
Proof.
  split.
  - intros g g' H. unfold Reader.processOptions in *.
    destruct (Config.getInstance g) as [o g0].
    destruct (Config.finishOptions _) as [o2| | |] eqn:F; simpl in H;
      try discriminate H.
    injection H as <-. unfold Config.store. simpl Config.getInstance.
    cbv iota.
    destruct (OptionsFacts.finishOptions_keeps _ _ F) as (Hq & _).
    assert ((Config.querySize o2 =? -1) = false) as ->.
    { rewrite Hq. destruct (Config.querySize o =? -1) eqn:Eq;
        [reflexivity | exact Eq]. }
    rewrite (OptionsFacts.finishOptions_fixed _ _ F). reflexivity.
  - intros fileSize g g' H. unfold Copier.processOptions in *.
    destruct (Config.getInstance g) as [o g0].
    destruct (Config.finishOptions _) as [o2| | |] eqn:F; simpl in H;
      try discriminate H.
    injection H as <-. unfold Config.store. simpl Config.getInstance.
    cbv iota.
    destruct (OptionsFacts.finishOptions_keeps _ _ F) as (Hq & _).
    assert ((if Config.querySize o2 =? -1
             then Config.set_querySize fileSize o2 else o2) = o2) as ->.
    { destruct (Config.querySize o2 =? -1) eqn:E2; [|reflexivity].
      apply Z.eqb_eq in E2.
      assert (Config.querySize o2 = fileSize) as <-.
      { rewrite Hq. destruct (Config.querySize o =? -1) eqn:Eq.
        - reflexivity.
        - simpl in Hq. apply Z.eqb_neq in Eq. congruence. }
      destruct o2; reflexivity. }
    rewrite (OptionsFacts.finishOptions_fixed _ _ F). reflexivity.
Qed.

Lemma processOptions_idempotent_witness :
  Reader.processOptions (Some Sample.patient_options)
  = Returned (Some Sample.patient_options)
  /\ Copier.processOptions 8
       (Some (Config.set_timeoutSeconds Double.MAXFLOAT
                (Config.set_chunksMaxCount 2
                   (Config.set_querySize 8
                      (Config.set_chunkSize 4 Config.defaults)))))
     = Returned
         (Some (Config.set_timeoutSeconds Double.MAXFLOAT
                  (Config.set_chunksMaxCount 2
                     (Config.set_querySize 8
                        (Config.set_chunkSize 4 Config.defaults))))).
Proof.
  destruct processOptions_idempotent as [Hreader Hcopier]. split.
  - apply (Hreader (Some (Config.set_chunksMaxCount 5
                            (Config.set_chunkSize 4
                               (Config.set_source "data"
                                  Config.defaults))))).
    vm_compute. reflexivity.
  - apply (Hcopier 8 (Some (Config.set_chunkSize 4 Config.defaults))).
    vm_compute. reflexivity.
Defined.

(** X6.  [processOptions] of the reader kills the process exactly when no
    count of chunks is given and the division of the query size by the
    chunk size traps: the chunk size is zero, or it is [-1] and the query
    size is [LONG_MIN].  In every other case it returns. *)
Theorem processOptions_traps_on_division :
  forall g : Config.global,
    let o := fst (Config.getInstance g) in
    let traps :=
      Config.chunksMaxCount o = -1
      /\ (Config.chunkSize o = 0
          \/ (Config.querySize o = Long.LONG_MIN
              /\ Config.chunkSize o = -1)) in
    (traps -> Reader.processOptions g = Aborted)
    /\ (~ traps -> exists o2, Reader.processOptions g = Returned (Some o2)).
Proof.
  intros g o traps. subst o traps. unfold Reader.processOptions.
  destruct (Config.getInstance g) as [o g0]. simpl fst.
  set (o1 := if Config.querySize o =? -1
             then Config.set_querySize Long.LONG_MAX o else o).
  assert (Config.chunksMaxCount o1 = Config.chunksMaxCount o
          /\ Config.chunkSize o1 = Config.chunkSize o
          /\ (Config.querySize o1 = Long.LONG_MIN
              <-> Config.querySize o = Long.LONG_MIN))
    as (Hm & Hc & Hq).
  { unfold o1. destruct (Config.querySize o =? -1) eqn:E; simpl.
    - apply Z.eqb_eq in E. rewrite E. repeat split; discriminate.
    - repeat split; auto. }
  destruct (OptionsFacts.finishOptions_outcome o1) as [Htrap Hret].
  rewrite Hm, Hc, Hq in Htrap, Hret. split.
  - intros H. rewrite (Htrap H). reflexivity.
  - intros H. destruct (Hret H) as (o2 & ->). exists o2. reflexivity.
Qed.

Lemma processOptions_traps_on_division_witness :
  Reader.processOptions (Some (Config.set_chunkSize 0 Config.defaults))
  = Aborted
  /\ exists o2, Reader.processOptions Config.nullptr = Returned (Some o2).
Proof.
  split.
  - apply (proj1 (processOptions_traps_on_division
                    (Some (Config.set_chunkSize 0 Config.defaults)))).
    split; [reflexivity | left; reflexivity].
  - apply (proj2 (processOptions_traps_on_division Config.nullptr)).
    intros [_ [H | [_ H]]]; discriminate H.
Defined.

(** ** [fileRead] *)

Lemma reader_loop_outcome :
  forall o clk fuel st,
    (exists fin, Reader.loop fuel o clk st = Returned fin)
    \/ Reader.loop fuel o clk st = OutOfFuel.
Proof.
  intros o clk fuel. induction fuel as [|fuel IH]; intros st.
  - right. reflexivity.
  - simpl. destruct (Reader.body o clk st) as [[] st'];
      [left; eexists; reflexivity | apply IH | left; eexists; reflexivity].
Qed.

Lemma unwritable_fails :
  forall fs path,
    In path (IOS.unwritable fs) -> IOS.ook (IOS.open_out fs path) = false.
Proof.
  intros fs path H. unfold IOS.open_out, IOS.ook. simpl.
  replace (existsb (String.eqb path) (IOS.unwritable fs)) with true;
    [reflexivity|].
  symmetry. apply existsb_exists. exists path.
  split; [exact H | apply String.eqb_refl].
Qed.

Lemma missing_fails :
  forall fs path,
    IOS.lookup path (IOS.files fs) = None ->
    IOS.ok (IOS.open_in fs path) = false.
Proof. intros fs path H. unfold IOS.open_in. rewrite H. reflexivity. Qed.

Lemma allocates_positive :
  forall fs n, IOS.allocates fs n = true -> 0 <= n.
Proof.
  intros fs n H. unfold IOS.allocates in H.
  apply andb_true_iff in H. destruct H as [H _]. apply Z.leb_le. exact H.
Qed.

(** X7.  [fileRead] on a source that holds the bytes [c], with a positive
    chunk size: when it returns from the loop, [totalRead] is the position
    of the source stream, it lies between zero and the length of the
    source, and it is at most [chunksMaxCount + 1] chunks (none when that
    is negative). *)
Theorem fileRead_total_within_bounds :
  forall fs clk fuel o c fin,
    IOS.lookup (Config.source o) (IOS.files fs) = Some c ->
    0 < Config.chunkSize o ->
    Z.of_nat (List.length c) < 2 ^ 63 ->
    Reader.fileRead_locals fs clk fuel o = Returned (Some fin) ->
    Reader.totalRead fin = Z.of_N (IOS.gpos (Reader.ifs fin))
    /\ 0 <= Reader.totalRead fin <= Z.of_nat (List.length c)
    /\ Reader.totalRead fin
       <= Z.max 0 (Config.chunksMaxCount o + 1) * Config.chunkSize o.
Proof.
  intros fs clk fuel o c fin Hc Hn Hlen H.
  destruct (ReaderMore.fileRead_locals_out fs clk fuel o c fin Hc Hn Hlen H)
    as (H1 & H2 & H3 & _).
  pose proof (ReaderMore.source_bytes_length o c) as Hshort.
  split; [exact H1|]. split; [lia | exact H3].
Qed.

Lemma fileRead_total_within_bounds_witness :
  exists fin,
    Reader.fileRead_locals Sample.disk Sample.steady 10
                           Sample.patient_options
    = Returned (Some fin)
    /\ Reader.totalRead fin = Z.of_N (IOS.gpos (Reader.ifs fin))
    /\ 0 <= Reader.totalRead fin <= 8
    /\ Reader.totalRead fin <= 24.
Proof.
  eexists. split; [vm_compute; reflexivity|].
  apply (fileRead_total_within_bounds
           Sample.disk Sample.steady 10 Sample.patient_options
           Sample.eight);
    [reflexivity | reflexivity | reflexivity | vm_compute; reflexivity].
Defined.

(** X8.  When both streams open and the chunk size is positive,
    [fileRead] returns [false] only after it has read the whole source:
    all the bytes that the source holds once the destination is open,
    which are the bytes it held before unless the destination is the same
    file. *)
Theorem fileRead_false_after_whole_source :
  forall fs clk fuel o c g',
    IOS.lookup (Config.source o) (IOS.files fs) = Some c ->
    IOS.ook (IOS.open_out fs (Config.destination o)) = true ->
    0 < Config.chunkSize o ->
    Z.of_nat (List.length c) < 2 ^ 63 ->
    Reader.fileRead fs clk fuel (Some o) = Returned (false, g') ->
    exists fin,
      Reader.fileRead_locals fs clk fuel o = Returned (Some fin)
      /\ Reader.totalRead fin
         = Z.of_nat (List.length (Invariants.source_bytes o c))
      /\ (Config.destination o <> Config.source o ->
          Reader.totalRead fin = Z.of_nat (List.length c)).
Proof.
  intros fs clk fuel o c g' Hc Hout Hn Hlen H.
  unfold Reader.fileRead in H. simpl Config.getInstance in H. cbv iota in H.
  destruct (Reader.fileRead_locals fs clk fuel o) as [r| | |] eqn:L;
    simpl in H; try discriminate H.
  destruct r as [fin|].
  - injection H as Hres _. exists fin. split; [reflexivity|].
    destruct (ReaderMore.fileRead_locals_out fs clk fuel o c fin
                Hc Hn Hlen L) as (_ & _ & _ & Hfalse & _).
    split; [apply Hfalse; exact Hres|].
    intros Hother. rewrite (Hfalse Hres).
    rewrite (ReaderMore.source_bytes_other o c Hother). reflexivity.
  - exfalso. unfold Reader.fileRead_locals in L.
    destruct (IOS.allocates fs (Config.chunkSize o)); [|discriminate L].
    cbn [negb] in L.
    rewrite (StreamFacts.open_in_found fs _ c Hc) in L.
    simpl IOS.ok in L. cbv iota in L. rewrite Hout in L.
    destruct (Reader.loop _ _ _ _); discriminate L.
Qed.

Lemma fileRead_false_after_whole_source_witness :
  exists fin,
    Reader.fileRead_locals Sample.disk Sample.steady 10
                           Sample.patient_options
    = Returned (Some fin)
    /\ Reader.totalRead fin
       = Z.of_nat (List.length
                     (Invariants.source_bytes Sample.patient_options
                                              Sample.eight))
    /\ (Config.destination Sample.patient_options
        <> Config.source Sample.patient_options ->
        Reader.totalRead fin = 8).
Proof.
  apply (fileRead_false_after_whole_source
           Sample.disk Sample.steady 10 Sample.patient_options
           Sample.eight (Some Sample.patient_options));
    [reflexivity | reflexivity | reflexivity | reflexivity
     | vm_compute; reflexivity].
Defined.

(** X9.  On a source shorter than [chunksMaxCount + 1] chunks the budget
    of chunks cannot stop the loop: when the loop of [fileRead] ends with
    [result] set, the timeout has passed. *)
Theorem fileRead_short_source_true_is_timeout :
  forall fs clk fuel o c fin,
    IOS.lookup (Config.source o) (IOS.files fs) = Some c ->
    0 < Config.chunkSize o ->
    Z.of_nat (List.length c)
    < (Config.chunksMaxCount o + 1) * Config.chunkSize o ->
    Z.of_nat (List.length c) < 2 ^ 63 ->
    Reader.fileRead_locals fs clk fuel o = Returned (Some fin) ->
    Reader.result fin = true ->
    Reader.timed_out o fin = true.
Proof.
  intros fs clk fuel o c fin Hc Hn Hshort Hlen H Hres.
  destruct (ReaderMore.fileRead_locals_out fs clk fuel o c fin Hc Hn Hlen H)
    as (_ & H2 & _ & _ & Htrue).
  pose proof (ReaderMore.source_bytes_length o c) as Hle.
  destruct (Htrue Hres) as [Ht | Hb]; [exact Ht | lia].
Qed.

Lemma fileRead_short_source_true_is_timeout_witness :
  exists fin,
    Reader.fileRead_locals Sample.disk Sample.steady 10
                           Sample.impatient_options
    = Returned (Some fin)
    /\ Reader.result fin = true
    /\ Reader.timed_out Sample.impatient_options fin = true.
Proof.
  eexists. split; [vm_compute; reflexivity|].
  split; [reflexivity|].
  apply (fileRead_short_source_true_is_timeout
           Sample.disk Sample.steady 10 Sample.impatient_options
           Sample.eight);
    [reflexivity | reflexivity | reflexivity | reflexivity
     | vm_compute; reflexivity | reflexivity].
Defined.

(** X10.  The end of the source bounds the passes of the loop: when the
    buffer is allocated, on a source of fewer than [fuel] chunks, with a
    positive chunk size, [fileRead] returns, and it leaves the options as
    they were. *)
Theorem fileRead_returns_at_end_of_source :
  forall fs clk fuel o c,
    IOS.allocates fs (Config.chunkSize o) = true ->
    IOS.lookup (Config.source o) (IOS.files fs) = Some c ->
    0 < Config.chunkSize o ->
    Z.of_nat (List.length c) < 2 ^ 63 ->
    Z.of_nat (List.length c) < Z.of_nat fuel * Config.chunkSize o ->
    exists b, Reader.fileRead fs clk fuel (Some o) = Returned (b, Some o).
Proof.
  intros fs clk fuel o c Hmem Hc Hn Hlen Hfuel.
  unfold Reader.fileRead, Reader.fileRead_locals. simpl Config.getInstance.
  cbv iota. rewrite Hmem. cbn [negb].
  rewrite (StreamFacts.open_in_found fs _ c Hc). simpl IOS.ok. cbv iota.
  destruct (IOS.ook (IOS.open_out fs (Config.destination o))) eqn:Hout.
  - pose proof (ReaderMore.source_bytes_length o c) as Hshort.
    destruct (ReaderMore.loop_returns_at_end o clk
                (Invariants.source_bytes o c) fuel _ Hn
                ltac:(lia) (ReaderMore.reader_entry fs o c Hout))
      as (fin & Hfin).
    + cbn [Reader.entry Reader.totalRead]. lia.
    + rewrite Hfin. simpl. eexists. reflexivity.
  - simpl. eexists. reflexivity.
Qed.

Lemma fileRead_returns_at_end_of_source_witness :
  exists b,
    Reader.fileRead Sample.disk Sample.steady 3
                    (Some Sample.patient_options)
    = Returned (b, Some Sample.patient_options).
Proof.
  apply (fileRead_returns_at_end_of_source
           Sample.disk Sample.steady 3 Sample.patient_options
           Sample.eight); reflexivity.
Defined.

(** X11.  The budget of chunks bounds the passes too: when the buffer is
    allocated and the budget is below [LONG_MAX], the loop of [fileRead]
    makes at most [chunksMaxCount + 2] passes, so that [fileRead] returns
    one and the same value for every fuel from there on.  (Every read of
    the model comes back: the source is a regular file or is missing.) *)
Theorem fileRead_returns_within_budget :
  forall fs clk o,
    IOS.allocates fs (Config.chunkSize o) = true ->
    Config.chunksMaxCount o < Long.LONG_MAX ->
    exists b, forall fuel,
        (S (Z.to_nat (Config.chunksMaxCount o + 1)) <= fuel)%nat ->
        Reader.fileRead fs clk fuel (Some o) = Returned (b, Some o).
Proof. exact ReaderFacts.fileRead_returns. Qed.

Lemma fileRead_returns_within_budget_witness :
  exists b, forall fuel,
      (7 <= fuel)%nat ->
      Reader.fileRead Sample.disk Sample.steady fuel
                      (Some Sample.patient_options)
      = Returned (b, Some Sample.patient_options).
Proof.
  apply (fileRead_returns_within_budget
           Sample.disk Sample.steady Sample.patient_options);
    reflexivity.
Defined.

(** X12.  A stream that does not open: when the buffer is allocated and
    the source is missing or the destination cannot be opened, [fileRead]
    returns [false] without a pass of the loop -- whatever the fuel -- and
    leaves the options as they were. *)
Theorem fileRead_unopened_stream :
  forall fs clk fuel o,
    IOS.allocates fs (Config.chunkSize o) = true ->
    IOS.lookup (Config.source o) (IOS.files fs) = None
    \/ In (Config.destination o) (IOS.unwritable fs) ->
    Reader.fileRead fs clk fuel (Some o) = Returned (false, Some o).
Proof.
  intros fs clk fuel o Hmem H.
  unfold Reader.fileRead, Reader.fileRead_locals. simpl Config.getInstance.
  cbv iota. rewrite Hmem. cbn [negb].
  destruct (IOS.ok (IOS.open_in fs (Config.source o))) eqn:Hin.
  - destruct H as [H | H].
    + rewrite (missing_fails fs _ H) in Hin. discriminate Hin.
    + rewrite (unwritable_fails fs _ H). reflexivity.
  - reflexivity.
Qed.

Lemma fileRead_unopened_stream_witness :
  Reader.fileRead Sample.disk Sample.steady 0
                  (Some (Config.set_source "absent"
                                           Sample.patient_options))
  = Returned (false,
              Some (Config.set_source "absent" Sample.patient_options)).
Proof.
  apply (fileRead_unopened_stream
           Sample.disk Sample.steady 0
           (Config.set_source "absent" Sample.patient_options)).
  - reflexivity.
  - left. reflexivity.
Defined.

(** X13.  [fileRead] is killed exactly by the allocation of the buffer:
    the process dies in it if and only if the buffer of [chunkSize] bytes
    is not allocated -- the size is negative, or more than the process is
    given.  Neither the streams nor the loop kill it.  (The progress
    lines, which are not part of the model, are left aside.) *)
Theorem fileRead_aborts_iff_no_buffer :
  forall fs clk fuel o,
    Reader.fileRead fs clk fuel (Some o) = Aborted
    <-> IOS.allocates fs (Config.chunkSize o) = false.
Proof.
  intros fs clk fuel o.
  unfold Reader.fileRead, Reader.fileRead_locals. simpl Config.getInstance.
  cbv iota.
  destruct (IOS.allocates fs (Config.chunkSize o)); cbn [negb].
  - split; [|discriminate]. intros H. exfalso.
    destruct (IOS.ok _); [|discriminate H].
    destruct (IOS.ook _); [|discriminate H].
    match type of H with
    | context [Reader.loop fuel o clk ?st0] =>
        destruct (reader_loop_outcome o clk fuel st0)
          as [(fin & E) | E]; rewrite E in H; discriminate H
    end.
  - split; reflexivity.
Qed.

(** ** [fileCopy] *)

Lemma copier_loop_outcome :
  forall o clk fuel st,
    (exists fin, Copier.loop fuel o clk st = Returned fin)
    \/ Copier.loop fuel o clk st = OutOfFuel.
Proof.
  intros o clk fuel. induction fuel as [|fuel IH]; intros st.
  - right. reflexivity.
  - simpl. destruct (Copier.body o clk st) as [[] st'];
      [left; eexists; reflexivity | apply IH | left; eexists; reflexivity].
Qed.

Lemma copier_loop_returns_at_end :
  forall o clk c fuel st,
    0 < Config.chunkSize o -> Z.of_nat (List.length c) < 2 ^ 63 ->
    (IOS.same_file (Config.destination o) (Config.source o) = true ->
     c = []) ->
    Invariants.copying c o st ->
    Z.of_nat (List.length c) - Copier.offset st
    < Z.of_nat fuel * Config.chunkSize o ->
    exists fin, Copier.loop fuel o clk st = Returned fin.
Proof.
  intros o clk c fuel. induction fuel as [|fuel IH];
    intros st Hn Hlen Hsame Hinv Hfuel.
  - destruct Hinv as ((_ & _ & Ho & _) & _). simpl in Hfuel. lia.
  - simpl. destruct (Copier.body o clk st) as [f st'] eqn:E.
    destruct (CopierMore.body_copying o clk c st f st' Hn Hlen Hsame
                Hinv E) as [Hagain _].
    destruct f; try (eexists; reflexivity).
    destruct (Hagain eq_refl) as [Hinv' Hstep].
    apply (IH st' Hn Hlen Hsame Hinv'). rewrite Hstep. lia.
Qed.

Lemma copier_processOptions_returns :
  forall size o,
    0 < Config.chunkSize o ->
    exists o2, Copier.processOptions size (Some o) = Returned (Some o2).
Proof.
  intros size o Hn. unfold Copier.processOptions. simpl Config.getInstance.
  cbv iota.
  set (o1 := if Config.querySize o =? -1
             then Config.set_querySize size o else o).
  assert (Config.chunkSize o1 = Config.chunkSize o) as Hc
      by (unfold o1; destruct (Config.querySize o =? -1); reflexivity).
  destruct (proj2 (OptionsFacts.finishOptions_outcome o1)) as (o2 & ->).
  - rewrite Hc. intros [_ [H | [_ H]]]; lia.
  - exists o2. reflexivity.
Qed.








(** X17.  [fileCopy] writes to the options: when the source opens and no
    query size was given, the options hold the length of the source as
    query size when [fileCopy] returns -- whatever it returns -- and, when
    no count of chunks was given either, the quotient of that length by
    the chunk size as the count. *)
Theorem fileCopy_stores_source_length :
  forall fs clk fuel o c b g',
    IOS.lookup (Config.source o) (IOS.files fs) = Some c ->
    Config.querySize o = -1 ->
    Copier.fileCopy fs clk fuel (Some o) = Returned (b, g') ->
    exists o2,
      g' = Some o2
      /\ Config.querySize o2 = Z.of_nat (List.length c)
      /\ Config.chunkSize o2 = Config.chunkSize o
      /\ (Config.chunksMaxCount o = -1 ->
          Config.chunksMaxCount o2
          = Z.quot (Z.of_nat (List.length c)) (Config.chunkSize o)).
Proof.
  intros fs clk fuel o c b g' Hc Hq H.
  pose proof (ConfigFacts.fileCopy_processes_options
                fs clk fuel (Some o) b g' c H Hc) as P.
  simpl in P.
  assert (exists o2, g' = Some o2) as (o2 & ->).
  { unfold Copier.processOptions in P. simpl Config.getInstance in P.
    cbv iota in P.
    destruct (Config.finishOptions _); simpl in P; try discriminate P.
    injection P as <-. eexists. reflexivity. }
  destruct (CopierMore.copier_processOptions_keeps _ o o2 P)
    as (Hcs & Hqs & _ & _ & Hdiv).
  rewrite Hq in Hqs. simpl in Hqs.
  exists o2. split; [reflexivity|]. split; [exact Hqs|].
  split; [exact Hcs|]. intros Hcount. specialize (Hdiv Hcount).
  rewrite Hqs in Hdiv. unfold Config.long_div in Hdiv.
  destruct (_ || _); [discriminate Hdiv|]. injection Hdiv as Hdiv.
  symmetry. exact Hdiv.
Qed.

Lemma fileCopy_stores_source_length_witness :
  exists o2,
    Some {| Config.chunkSize := 4; Config.chunksMaxCount := 2;
            Config.source := "data"; Config.destination := "/dev/null";
            Config.showProgress := true; Config.querySize := 8;
            Config.timeoutSeconds := Double.MAXFLOAT;
            Config.waitingTimeMilliseconds := 0 |}
    = Some o2
    /\ Config.querySize o2 = 8
    /\ Config.chunkSize o2 = 4
    /\ (-1 = -1 -> Config.chunksMaxCount o2 = Z.quot 8 4).
Proof.
  apply (fileCopy_stores_source_length
           Sample.disk Sample.steady 10
           (Config.set_chunkSize 4
              (Config.set_source "data" Config.defaults))
           Sample.eight true);
    [reflexivity | reflexivity | vm_compute; reflexivity].
Defined.



(** X19.  A source that does not open: when the buffer is allocated,
    [fileCopy] returns [false] without a pass of the loop and without a
    call of [processOptions], so that the options stay as they were. *)
Theorem fileCopy_missing_source :
  forall fs clk fuel o,
    IOS.allocates fs (Config.chunkSize o) = true ->
    IOS.lookup (Config.source o) (IOS.files fs) = None ->
    Copier.fileCopy fs clk fuel (Some o) = Returned (false, Some o).
Proof.
  intros fs clk fuel o Hmem Hc.
  unfold Copier.fileCopy, Copier.fileCopy_report.
  simpl Config.getInstance. cbv iota. rewrite Hmem. cbn [negb].
  rewrite (missing_fails fs _ Hc). reflexivity.
Qed.

Lemma fileCopy_missing_source_witness :
  Copier.fileCopy Sample.disk Sample.steady 0
                  (Some (Config.set_source "absent" Config.defaults))
  = Returned (false, Some (Config.set_source "absent" Config.defaults)).
Proof.
  apply (fileCopy_missing_source
           Sample.disk Sample.steady 0
           (Config.set_source "absent" Config.defaults));
    reflexivity.
Defined.

(** X20.  The end of the source bounds the passes of the loop of
    [fileCopy]: when the buffer is allocated, on a source of fewer than
    [fuel] chunks, with a positive chunk size, [fileCopy] returns. *)
Theorem fileCopy_returns_at_end_of_source :
  forall fs clk fuel o c,
    IOS.allocates fs (Config.chunkSize o) = true ->
    IOS.lookup (Config.source o) (IOS.files fs) = Some c ->
    0 < Config.chunkSize o ->
    Z.of_nat (List.length c) < 2 ^ 63 ->
    Z.of_nat (List.length c) < Z.of_nat fuel * Config.chunkSize o ->
    exists b g', Copier.fileCopy fs clk fuel (Some o) = Returned (b, g').
Proof.
  intros fs clk fuel o c Hmem Hc Hn Hlen Hfuel.
  unfold Copier.fileCopy, Copier.fileCopy_report.
  simpl Config.getInstance. cbv iota. rewrite Hmem. cbn [negb].
  rewrite (StreamFacts.open_in_found fs _ c Hc). simpl IOS.ok. cbv iota.
  rewrite CopierFacts.fileLength_good by reflexivity.
  unfold IOS.size. simpl IOS.content.
  destruct (copier_processOptions_returns (Z.of_nat (List.length c)) o Hn)
    as (o2 & P).
  rewrite P.
  destruct (CopierMore.copier_processOptions_keeps _ o o2 P) as (Hcs & _).
  cbn [bind Config.getInstance].
  destruct (IOS.ook (IOS.open_out fs (Config.destination o2))) eqn:Hout.
  - pose proof (ReaderMore.source_bytes_length o2 c) as Hshort.
    destruct (copier_loop_returns_at_end o2 clk
                (Invariants.source_bytes o2 c) fuel _
                ltac:(lia) ltac:(lia)
                (CopierMore.source_bytes_same o2 c)
                (CopierMore.copy_entry fs c o2 Hout))
      as (fin & Hfin).
    + cbn [Copier.entry Copier.offset]. rewrite Hcs. lia.
    + rewrite Hfin. simpl. eexists. eexists. reflexivity.
  - simpl. eexists. eexists. reflexivity.
Qed.

Lemma fileCopy_returns_at_end_of_source_witness :
  exists b g',
    Copier.fileCopy Sample.disk Sample.steady 3
                    (Some (Config.set_chunkSize 4
                             (Config.set_source "data" Config.defaults)))
    = Returned (b, g').
Proof.
  apply (fileCopy_returns_at_end_of_source
           Sample.disk Sample.steady 3
           (Config.set_chunkSize 4
              (Config.set_source "data" Config.defaults))
           Sample.eight); reflexivity.
Defined.

(** ** A destination that is the source, and one that takes no bytes *)

(** X21.  A destination that is the file of the source: opening it
    empties the file, so both loops find a source of no bytes.  The loop
    of [fileRead], with a positive chunk size, reads nothing; the loop of
    [fileCopy] reads and writes nothing, and [fileCopy] returns [true]
    only if the source held no bytes before. *)
Theorem same_file_reads_nothing :
  (forall fs clk fuel o c fin,
      IOS.lookup (Config.source o) (IOS.files fs) = Some c ->
      0 < Config.chunkSize o ->
      Z.of_nat (List.length c) < 2 ^ 63 ->
      Config.destination o = Config.source o ->
      Reader.fileRead_locals fs clk fuel o = Returned (Some fin) ->
      Reader.totalRead fin = 0)
  /\ (forall fs clk fuel o c rep g',
         IOS.lookup (Config.source o) (IOS.files fs) = Some c ->
         Z.of_nat (List.length c) < 2 ^ 63 ->
         Config.destination o = Config.source o ->
         Copier.fileCopy_report fs clk fuel (Some o)
         = Returned (Some rep, g') ->
         Copier.totalRead (Copier.final rep) = 0
         /\ IOS.written (Copier.ofs (Copier.final rep)) = []
         /\ (Copier.fileCopy fs clk fuel (Some o) = Returned (true, g')
             <-> c = [])).
Proof.
  split.
  - intros fs clk fuel o c fin Hc Hn Hlen Hsame H.
    destruct (ReaderMore.fileRead_locals_out fs clk fuel o c fin
                Hc Hn Hlen H) as (_ & H2 & _).
    rewrite CopierMore.source_bytes_same in H2.
    + simpl in H2. lia.
    + unfold IOS.same_file. rewrite Hsame. apply String.eqb_refl.
  - intros fs clk fuel o c rep g' Hc Hlen Hsame R.
    destruct (CopierMore.fileCopy_report_shape fs clk fuel _ rep g' R)
      as (c' & o2 & st0 & Hc' & Hsize & P & _ & L & Hcop & Hok & _).
    simpl in Hc', P. rewrite Hc in Hc'. injection Hc' as <-.
    destruct (CopierMore.copier_processOptions_keeps _ o o2 P)
      as (_ & _ & Hsrc & Hdst & _).
    assert (IOS.same_file (Config.destination o2) (Config.source o2)
            = true) as Hfile.
    { unfold IOS.same_file. rewrite Hsrc, Hdst, Hsame.
      apply String.eqb_refl. }
    rewrite (CopierMore.source_bytes_same o2 c Hfile) in Hcop.
    destruct (CopierFacts.loop_copied o2 clk [] fuel st0 _
                ltac:(simpl; lia) ltac:(reflexivity) Hcop Hok L)
      as (Ht & Ho & (j & _ & Hw) & _).
    simpl in Ho. rewrite firstn_nil in Hw.
    assert (Copier.totalRead (Copier.final rep) = 0) as Hzero by lia.
    split; [exact Hzero|]. split; [exact Hw|].
    unfold Copier.fileCopy. rewrite R. simpl. rewrite Hsize, Hzero.
    split.
    + intros H. injection H as H. apply Z.eqb_eq in H.
      destruct c; [reflexivity | discriminate H].
    + intros ->. reflexivity.
Qed.

Lemma same_file_reads_nothing_witness :
  exists rep g',
    Copier.fileCopy_report
      Sample.disk Sample.steady 10
      (Some (Config.set_chunkSize 4
               (Config.set_destination "data"
                  (Config.set_source "data" Config.defaults))))
    = Returned (Some rep, g')
    /\ Copier.totalRead (Copier.final rep) = 0
    /\ IOS.written (Copier.ofs (Copier.final rep)) = []
    /\ (Copier.fileCopy
          Sample.disk Sample.steady 10
          (Some (Config.set_chunkSize 4
                   (Config.set_destination "data"
                      (Config.set_source "data" Config.defaults))))
        = Returned (true, g')
        <-> Sample.eight = []).
Proof.
  eexists. eexists. split; [vm_compute; reflexivity|].
  apply (proj2 same_file_reads_nothing
               Sample.disk Sample.steady 10%nat
               (Config.set_chunkSize 4
                  (Config.set_destination "data"
                     (Config.set_source "data" Config.defaults)))
               Sample.eight);
    [reflexivity | reflexivity | reflexivity | vm_compute; reflexivity].
Defined.

Lemma write_no_room :
  forall data s,
    IOS.is_good (IOS.wrstate s) = true ->
    IOS.room s = Some 0%nat -> data <> [] ->
    IOS.ook (IOS.write data s) = false
    /\ IOS.written (IOS.write data s) = IOS.written s.
Proof.
  intros data s Hg Hroom Hdata. unfold IOS.write, IOS.fitting.
  rewrite Hg, Hroom. simpl Nat.sub. rewrite Nat.min_0_r.
  destruct data as [|x data]; [contradiction|].
  cbn [List.length Nat.eqb firstn IOS.overwrite IOS.written].
  split; [|reflexivity].
  unfold IOS.ook. cbn [IOS.wrstate].
  rewrite CopierFacts.good_not_bad by exact Hg. reflexivity.
Qed.

(** A pass of the copier that no limit stops: what it leaves of the
    output stream, and how it ends when that stream has failed. *)
Lemma copier_pass_writes :
  forall o clk st,
    Copier.timed_out o st = false -> Copier.budget_spent o st = false ->
    let r := IOS.read (Config.chunkSize o)
                      (IOS.seekg (Copier.offset st) IOS.beg
                                 (Copier.ifs st)) in
    let w := IOS.write (fst r)
                       (IOS.seekp (Copier.offset st) (Copier.ofs st)) in
    Copier.ofs (snd (Copier.body o clk st)) = w
    /\ Copier.totalRead (snd (Copier.body o clk st))
       = Long.add (Copier.totalRead st) (IOS.gcount (snd r))
    /\ (IOS.ook w = false -> fst (Copier.body o clk st) = Leave).
Proof.
  intros o clk st Hto Hbs. unfold Copier.body. rewrite Hto, Hbs.
  destruct (IOS.read _ _) as [data ifs']. cbn [fst snd].
  split; [reflexivity|]. split; [reflexivity|].
  intros ->. rewrite andb_false_r. reflexivity.
Qed.

Lemma finishOptions_default_timeout :
  forall o o2,
    Config.finishOptions o = Returned o2 ->
    Config.timeoutSeconds o = Double.minus_one ->
    Config.timeoutSeconds o2 = Double.MAXFLOAT.
Proof.
  intros o o2 H Ht. unfold Config.finishOptions in H.
  destruct (Config.chunksMaxCount o =? -1).
  - destruct (Config.long_div _ _); simpl in H; try discriminate H.
    rewrite Ht in H. injection H as <-. reflexivity.
  - simpl in H. rewrite Ht in H. injection H as <-. reflexivity.
Qed.

(** X22.  [fileCopy] does not look at the output stream when it decides:
    on a destination that takes no bytes (a device that is full), with
    the count, the query size and the timeout left to their defaults, a
    source that is not empty and fits in one chunk is read whole, the
    write fails, nothing is written, and [fileCopy] returns [true]. *)
Theorem fileCopy_true_after_failed_write :
  forall fs clk fuel o c,
    IOS.allocates fs (Config.chunkSize o) = true ->
    IOS.lookup (Config.source o) (IOS.files fs) = Some c ->
    c <> [] ->
    Z.of_nat (List.length c) <= Config.chunkSize o ->
    Z.of_nat (List.length c) < 2 ^ 63 ->
    Config.destination o <> Config.source o ->
    ~ In (Config.destination o) (IOS.unwritable fs) ->
    IOS.room_at (Config.destination o) (IOS.capacity fs) = Some 0%nat ->
    Config.chunksMaxCount o = -1 ->
    Config.querySize o = -1 ->
    Config.timeoutSeconds o = Double.minus_one ->
    (0 < fuel)%nat ->
    exists rep g',
      Copier.fileCopy_report fs clk fuel (Some o) = Returned (Some rep, g')
      /\ Copier.fileCopy fs clk fuel (Some o) = Returned (true, g')
      /\ Copier.totalRead (Copier.final rep) = Z.of_nat (List.length c)
      /\ IOS.ook (Copier.ofs (Copier.final rep)) = false
      /\ IOS.written (Copier.ofs (Copier.final rep)) = [].
Proof.
  intros fs clk fuel o c Hmem Hc Hne Hfit Hlen Hother Hopen Hfull
         Hcount Hquery Htime Hfuel.
  assert (0 < Config.chunkSize o) as Hn.
  { destruct c; [contradiction | simpl in Hfit; lia]. }
  (* the options after [processOptions] *)
  destruct (copier_processOptions_returns (Z.of_nat (List.length c)) o Hn)
    as (o2 & P).
  destruct (CopierMore.copier_processOptions_keeps _ o o2 P)
    as (Hcs & Hqs & Hsrc & Hdst & Hdiv).
  specialize (Hdiv Hcount). rewrite Hquery in Hqs. simpl in Hqs.
  assert (0 <= Config.chunksMaxCount o2) as Hmax.
  { rewrite Hqs in Hdiv. unfold Config.long_div in Hdiv.
    destruct (_ || _); [discriminate Hdiv|]. injection Hdiv as <-.
    apply Z.quot_pos; lia. }
  assert (Config.timeoutSeconds o2 = Double.MAXFLOAT) as Ht2.
  { unfold Copier.processOptions in P. simpl Config.getInstance in P.
    cbv iota in P.
    destruct (Config.finishOptions _) as [o3| | |] eqn:F; simpl in P;
      try discriminate P.
    injection P as <-.
    apply (finishOptions_default_timeout _ _ F).
    destruct (Config.querySize o =? -1); exact Htime. }
  (* the streams *)
  assert (IOS.open_out fs (Config.destination o2)
          = {| IOS.written := []; IOS.ppos := 0%N;
               IOS.wrstate := IOS.goodbit; IOS.room := Some 0%nat |})
    as Hout.
  { unfold IOS.open_out. rewrite Hdst, Hfull.
    replace (existsb (String.eqb (Config.destination o))
                     (IOS.unwritable fs)) with false; [reflexivity|].
    symmetry. apply not_true_is_false. intros E.
    apply existsb_exists in E. destruct E as (q & Hq & E).
    apply String.eqb_eq in E. subst q. contradiction. }
  assert (IOS.shared (Config.destination o2)
                     (IOS.open_out fs (Config.destination o2))
                     (Config.source o2)
                     {| IOS.content := c; IOS.gpos := 0%N;
                        IOS.rdstate := IOS.goodbit; IOS.gcount := 0 |}
          = {| IOS.content := c; IOS.gpos := 0%N;
               IOS.rdstate := IOS.goodbit; IOS.gcount := 0 |}) as Hin.
  { unfold IOS.shared, IOS.same_file.
    destruct (String.eqb_spec (Config.destination o2) (Config.source o2));
      [congruence | reflexivity]. }
  (* the one pass *)
  set (st0 := Copier.entry
                {| IOS.content := c; IOS.gpos := 0%N;
                   IOS.rdstate := IOS.goodbit; IOS.gcount := 0 |}
                {| IOS.written := []; IOS.ppos := 0%N;
                   IOS.wrstate := IOS.goodbit; IOS.room := Some 0%nat |}).
  assert (Copier.timed_out o2 st0 = false) as Hto
      by (unfold Copier.timed_out; rewrite Ht2; reflexivity).
  assert (Copier.budget_spent o2 st0 = false) as Hbs.
  { unfold Copier.budget_spent. simpl. rewrite Z.gtb_ltb.
    apply Z.ltb_ge. exact Hmax. }
  destruct (copier_pass_writes o2 clk st0 Hto Hbs) as (Hofs & Hread & Hf).
  assert (IOS.read (Config.chunkSize o2)
                   (IOS.seekg (Copier.offset st0) IOS.beg (Copier.ifs st0))
          = (c, {| IOS.content := c;
                   IOS.gpos := N.of_nat (List.length c);
                   IOS.rdstate :=
                     if Z.of_nat (List.length c) =? Config.chunkSize o2
                     then IOS.goodbit else IOS.set_eof_fail IOS.goodbit;
                   IOS.gcount := Z.of_nat (List.length c) |})) as Hr.
  { unfold st0. cbn [Copier.entry Copier.offset Copier.ifs].
    rewrite StreamFacts.seekg_good by (simpl; reflexivity || lia).
    cbn [IOS.content IOS.rdstate IOS.gcount Z.add Z.to_N].
    rewrite ReaderMore.read_good by reflexivity.
    unfold IOS.available.
    cbn [IOS.content IOS.gpos IOS.rdstate N.to_nat skipn N.add].
    rewrite firstn_all2 by lia. reflexivity. }
  rewrite Hr in Hofs, Hread, Hf. cbn [fst snd IOS.gcount] in Hofs, Hread, Hf.
  destruct (write_no_room c (IOS.seekp (Copier.offset st0) (Copier.ofs st0)))
    as (Hbad & Hnone); [reflexivity | reflexivity | exact Hne |].
  specialize (Hf Hbad).
  assert (Copier.loop fuel o2 clk st0
          = Returned (snd (Copier.body o2 clk st0))) as Hloop.
  { destruct fuel as [|fuel']; [lia|]. simpl.
    destruct (Copier.body o2 clk st0) as [f st1]. simpl in Hf.
    rewrite Hf. reflexivity. }
  (* the call *)
  assert (Copier.fileCopy_report fs clk fuel (Some o)
          = Returned (Some {| Copier.fileSize := Z.of_nat (List.length c);
                              Copier.final :=
                                snd (Copier.body o2 clk st0) |},
                      Some o2)) as R.
  { unfold Copier.fileCopy_report. simpl Config.getInstance. cbv iota.
    rewrite Hmem. cbn [negb].
    rewrite (StreamFacts.open_in_found fs _ c Hc). simpl IOS.ok. cbv iota.
    rewrite CopierFacts.fileLength_good by reflexivity.
    unfold IOS.size. simpl IOS.content. rewrite P.
    cbn [bind Config.getInstance]. rewrite Hin, Hout.
    cbn [IOS.ook IOS.wrstate IOS.is_fail IOS.goodbit IOS.failbit
         IOS.badbit orb negb].
    fold st0. rewrite Hloop. reflexivity. }
  eexists. eexists. split; [exact R|].
  cbn [Copier.final].
  assert (Copier.totalRead (snd (Copier.body o2 clk st0))
          = Z.of_nat (List.length c)) as Htotal.
  { rewrite Hread. unfold st0. cbn [Copier.entry Copier.totalRead].
    unfold Long.add, Long.wrap64. rewrite Z.mod_small by lia. lia. }
  split.
  { unfold Copier.fileCopy. rewrite R. simpl.
    rewrite Htotal, Z.eqb_refl. reflexivity. }
  split; [exact Htotal|].
  rewrite Hofs. split; [exact Hbad | exact Hnone].
Qed.

Lemma fileCopy_true_after_failed_write_witness :
  exists rep g',
    Copier.fileCopy_report
      Sample.disk Sample.steady 10
      (Some (Config.set_chunkSize 8
               (Config.set_destination "/dev/full"
                  (Config.set_source "data" Config.defaults))))
    = Returned (Some rep, g')
    /\ Copier.fileCopy
         Sample.disk Sample.steady 10
         (Some (Config.set_chunkSize 8
                  (Config.set_destination "/dev/full"
                     (Config.set_source "data" Config.defaults))))
       = Returned (true, g')
    /\ Copier.totalRead (Copier.final rep) = 8
    /\ IOS.ook (Copier.ofs (Copier.final rep)) = false
    /\ IOS.written (Copier.ofs (Copier.final rep)) = [].
Proof.
  apply (fileCopy_true_after_failed_write
           Sample.disk Sample.steady 10
           (Config.set_chunkSize 8
              (Config.set_destination "/dev/full"
                 (Config.set_source "data" Config.defaults)))
           Sample.eight);
    [reflexivity | reflexivity | discriminate | simpl; lia | reflexivity
     | discriminate | simpl; intros H; exact H | reflexivity
     | reflexivity | reflexivity | reflexivity | lia].
Defined.
